(** * PStream: HLS playlist synthesis, manifest discovery and the batch run

    A shallow embedding of [src/generate.py], [src/utils.py] and
    [src/eurostartv_plugin.py], with the properties of the specification
    stated over it.

    Conventions of the embedding.
    - Python [str] is [string]; a text is a sequence of code points
      below 256.
    - Python [int] is [Z].
    - [None] is [None] of an [option]; an attribute read with
      [getattr(o, name, None)] is an [option] field.
    - Truthiness ([if x:]) is written out per type: an [int] is true when
      it is not [0], a [str], [list] or [dict] when it is not empty, and
      [None] is false.
    - A [dict] is a [gmap]; [d.update(e)] is the union that prefers [e].
    - A call that may raise returns a [res]; [Raise] propagates through
      [bind] the way an exception propagates through a sequence of
      statements. *)

From Stdlib Require Import ZArith Ascii String List DecimalString Permutation Sorted Lia.
From stdpp Require Import base option list strings gmap fin_maps.

Open Scope string_scope.
Open Scope Z_scope.

(** ** Python primitives *)

Module Py.

(** The newline character of ["\n"]. *)
Definition NL : string := String (ascii_of_nat 10) EmptyString.

(** The double quote character. *)
Definition DQ : string := String (ascii_of_nat 34) EmptyString.

(** [str(n)] and [f"{n}"] for an [int]. *)
Definition str_of_int (n : Z) : string := NilZero.string_of_int (Z.to_int n).

(** [bool(s)] for a [str]. *)
Definition truthy_str (s : string) : bool :=
  match s with EmptyString => false | String _ _ => true end.

(** [bool(n)] for an [int]. *)
Definition truthy_int (n : Z) : bool := negb (Z.eqb n 0).

(** [bool(l)] for a [list]. *)
Definition truthy_list {A} (l : list A) : bool :=
  match l with [] => false | _ :: _ => true end.

(** [sep.join(l)]. *)
Fixpoint join (sep : string) (l : list string) : string :=
  match l with
  | [] => EmptyString
  | [x] => x
  | x :: rest => x +:+ sep +:+ join sep rest
  end.

(** [needle in hay] for two [str]. *)
Fixpoint contains (needle hay : string) : bool :=
  if String.prefix needle hay then true
  else match hay with
       | EmptyString => false
       | String _ rest => contains needle rest
       end.

(** [s.endswith(suffix)]. *)
Definition ends_with (suffix s : string) : bool :=
  String.prefix (String.rev suffix) (String.rev s).

(** A value that is an [int] or a [str] (the PROGRAM-ID tag). *)
Inductive value : Type :=
| VInt (n : Z)
| VStr (s : string).

Definition truthy_value (v : value) : bool :=
  match v with VInt n => truthy_int n | VStr s => truthy_str s end.

Definition format_value (v : value) : string :=
  match v with VInt n => str_of_int n | VStr s => s end.

(** [x or y] on optional strings. *)
Definition or_str (x y : option string) : option string :=
  match x with
  | Some s => if truthy_str s then Some s else y
  | None => y
  end.

End Py.

(** ** Results of calls that may raise *)

Inductive exn : Type :=
| PluginError (msg : string)
| OSError (msg : string)
| TypeError (msg : string)
| JSONDecodeError (msg : string).

Inductive res (A : Type) : Type :=
| Ret (a : A)
| Raise (e : exn).
Arguments Ret {A} a.
Arguments Raise {A} e.

Definition bind {A B} (m : res A) (k : A -> res B) : res B :=
  match m with
  | Ret a => k a
  | Raise e => Raise e
  end.

Notation "x <- m ;; k" := (bind m (fun x => k))
  (at level 100, m at next level, right associativity, only parsing).

(** ** The variant model (streamlink's objects, as the code reads them) *)

Record Resolution : Type := {
  width : Z;
  height : Z
}.

Record StreamInfo : Type := {
  program_id : option Py.value;
  bandwidth : option Z;
  codecs : option (list string);
  resolution : option Resolution;
  video : option string
}.

Record Playlist : Type := {
  stream_info : option StreamInfo;
  uri : string
}.

Record M3U8 : Type := {
  playlists : list Playlist;
  version : option Z
}.

Record Stream : Type := {
  multivariant : option M3U8
}.

(** [session.streams(url)]: a dict from quality name to stream. *)
Abbreviation Streams := (gmap string Stream).

(** A playlist that both loops render: it has a [stream_info] and its
    [video] is not ["audio_only"]. *)
Definition is_audio_only (info : StreamInfo) : bool :=
  match video info with
  | Some v => String.eqb v "audio_only"
  | None => false
  end.

Definition survives (pl : Playlist) : bool :=
  match stream_info pl with
  | Some info => negb (is_audio_only info)
  | None => false
  end.

(** [bool(streams)] for the dict [session.streams(url)] returns. *)
Definition truthy_streams (streams : Streams) : bool :=
  negb (Nat.eqb (size streams) 0).

(** ** The streamlink session, as far as the code configures it

    [streamlink.Streamlink()] makes a session without options of its own;
    [session.set_option(name, value)] stores [value] under [name].  The
    only option the code sets is ["http-headers"], a dict of strings. *)

Abbreviation Headers := (gmap string string).

Record Streamlink : Type := {
  options : gmap string Headers
}.

Definition new_session : Streamlink := {| options := ∅ |}.

Definition set_option (session : Streamlink) (name : string) (value : Headers)
    : Streamlink :=
  {| options := <[name := value]> (options session) |}.

(** [bool(d)] for a [dict]. *)
Definition truthy_dict (d : Headers) : bool := negb (Nat.eqb (size d) 0).

(** [d.update(e)]: every key of [e] is set in [d]. *)
Definition dict_update (d e : Headers) : Headers := e ∪ d.

(** ** utils.py *)

Module Utils.

(** [make_streamlink_session(headers)]. *)
Definition make_streamlink_session (headers : option Headers) : Streamlink :=
  let session := new_session in
  let default_headers : Headers := {[ "User-Agent" := "Mozilla/5.0" ]} in
  let default_headers :=
    match headers with
    | Some h => if truthy_dict h then dict_update default_headers h
                else default_headers
    | None => default_headers
    end in
  set_option session "http-headers" default_headers.

(** [fetch_streams(url, headers)]; [streams] is [session.streams(url)]
    of the library. *)
Definition fetch_streams (streams : Streamlink -> string -> res Streams)
    (url : string) (headers : option Headers) : res Streams :=
  let session := make_streamlink_session headers in
  streams session url.

(** [stream_info_to_extinf(stream_info, url)]. *)
Definition stream_info_to_extinf (info : StreamInfo) (url : string) : string :=
  let text := "#EXT-X-STREAM-INF:" in
  let text :=
    match program_id info with
    | Some p => if Py.truthy_value p
                then text +:+ "PROGRAM-ID=" +:+ Py.format_value p +:+ ","
                else text
    | None => text
    end in
  let text :=
    match bandwidth info with
    | Some b => if Py.truthy_int b
                then text +:+ "BANDWIDTH=" +:+ Py.str_of_int b +:+ ","
                else text
    | None => text
    end in
  let text :=
    match codecs info with
    | Some cs => if Py.truthy_list cs
                 then text +:+ "CODECS=" +:+ Py.DQ +:+ Py.join "," cs +:+ Py.DQ +:+ ","
                 else text
    | None => text
    end in
  let text :=
    match resolution info with
    | Some r => if Py.truthy_int (width r) && Py.truthy_int (height r)
                then text +:+ "RESOLUTION=" +:+ Py.str_of_int (width r)
                          +:+ "x" +:+ Py.str_of_int (height r)
                else text
    | None => text
    end in
  text +:+ Py.NL +:+ url +:+ Py.NL.

(** The sort key [height_of(pl)] of [build_master_and_best]. *)
Definition height_of (pl : Playlist) : Z :=
  match stream_info pl with
  | Some info =>
      match resolution info with
      | Some r => height r
      | None => 0
      end
  | None => 0
  end.

(** [sorted(l, key=key, reverse=True)]: the stable sort by descending
    key.  An element is placed behind the elements with a strictly
    greater key and before every other one, so elements with equal keys
    keep their order. *)
Fixpoint insert_desc {A} (key : A -> Z) (x : A) (l : list A) : list A :=
  match l with
  | [] => [x]
  | y :: rest => if Z.ltb (key x) (key y) then y :: insert_desc key x rest
                 else x :: y :: rest
  end.

Fixpoint sorted_reverse {A} (key : A -> Z) (l : list A) : list A :=
  match l with
  | [] => []
  | x :: rest => insert_desc key x (sorted_reverse key rest)
  end.

(** The body of [for i, playlist in enumerate(playlists)], on the pair
    [(master_text, best_text)]. *)
Definition loop_body (acc : string * string) (ip : nat * Playlist) : string * string :=
  let '(master_text, best_text) := acc in
  let '(i, playlist) := ip in
  match stream_info playlist with
  | None => acc
  | Some info =>
      if is_audio_only info then acc
      else
        let sub := stream_info_to_extinf info (uri playlist) in
        let master_text := master_text +:+ sub in
        let best_text := if Nat.eqb i 0 then sub else best_text in
        (master_text, best_text)
  end.

(** [enumerate(l)]. *)
Definition enumerate {A} (l : list A) : list (nat * A) :=
  combine (seq 0 (length l)) l.

(** The two header lines put before a non-empty body. *)
Definition with_header (version : option Z) (body : string) : string :=
  let body :=
    match version with
    | Some v => if Py.truthy_int v
                then "#EXT-X-VERSION:" +:+ Py.str_of_int v +:+ Py.NL +:+ body
                else body
    | None => body
    end in
  "#EXTM3U" +:+ Py.NL +:+ body.

(** [build_master_and_best(streams)]. *)
Definition build_master_and_best (streams : Streams) : option string * option string :=
  match streams !! "best" with
  | None => (None, None)
  | Some best_stream =>
      match multivariant best_stream with
      | None => (None, None)
      | Some mv =>
          if negb (Py.truthy_list (playlists mv)) then (None, None)
          else
            let sorted_playlists := sorted_reverse height_of (playlists mv) in
            let '(master_text, best_text) :=
              fold_left loop_body (enumerate sorted_playlists) (EmptyString, EmptyString) in
            if negb (Py.truthy_str master_text) || negb (Py.truthy_str best_text)
            then (None, None)
            else (Some (with_header (version mv) master_text),
                  Some (with_header (version mv) best_text))
      end
  end.

End Utils.

(** ** The configuration document *)

Record channel : Type := {
  slug : string;
  url : string;
  headers : option Headers
}.

Record output_cfg : Type := {
  folder : string;
  bestFolder : string;
  masterFolder : string
}.

Record config : Type := {
  output : output_cfg;
  channels : list channel
}.

(** ** generate.py *)

Module Generate.

(** [info_to_text(stream_info, url)]. *)
Definition info_to_text (info : StreamInfo) (url : string) : string :=
  let text := "#EXT-X-STREAM-INF:" in
  let text :=
    match program_id info with
    | Some p => if Py.truthy_value p
                then text +:+ "PROGRAM-ID=" +:+ Py.format_value p +:+ ","
                else text
    | None => text
    end in
  let text :=
    match bandwidth info with
    | Some b => if Py.truthy_int b
                then text +:+ "BANDWIDTH=" +:+ Py.str_of_int b +:+ ","
                else text
    | None => text
    end in
  let text :=
    match codecs info with
    | Some cs => if Py.truthy_list cs
                 then text +:+ "CODECS=" +:+ Py.DQ +:+ Py.join "," cs +:+ Py.DQ +:+ ","
                 else text
    | None => text
    end in
  let text :=
    match resolution info with
    | Some r => if Py.truthy_int (width r)
                then text +:+ "RESOLUTION=" +:+ Py.str_of_int (width r)
                          +:+ "x" +:+ Py.str_of_int (height r)
                else text
    | None => text
    end in
  text +:+ Py.NL +:+ url +:+ Py.NL.

(** The state of the loop of [build_playlists]. *)
Record loop_state : Type := {
  previous_res_height : Z;
  master_text : string;
  best_text : string
}.

(** [getattr(info.resolution, "height", 0)]. *)
Definition height_attr (info : StreamInfo) : Z :=
  match resolution info with
  | Some r => height r
  | None => 0
  end.

(** The body of [for playlist in mv.playlists]. *)
Definition loop_body (st : loop_state) (playlist : Playlist) : loop_state :=
  match stream_info playlist with
  | None => st
  | Some info =>
      if is_audio_only info then st
      else
        let sub_text := info_to_text info (uri playlist) in
        let h := height_attr info in
        if Z.ltb (previous_res_height st) h
        then {| previous_res_height := h;
                master_text := sub_text +:+ master_text st;
                best_text := sub_text |}
        else {| previous_res_height := h;
                master_text := master_text st +:+ sub_text;
                best_text := best_text st |}
  end.

Definition initial : loop_state :=
  {| previous_res_height := 0;
     master_text := EmptyString;
     best_text := EmptyString |}.

(** [build_playlists(streams)]. *)
Definition build_playlists (streams : Streams) : option string * option string :=
  match streams !! "best" with
  | None => (None, None)
  | Some best_stream =>
      match multivariant best_stream with
      | None => (None, None)
      | Some mv =>
          if negb (Py.truthy_list (playlists mv)) then (None, None)
          else
            let st := fold_left loop_body (playlists mv) initial in
            if negb (Py.truthy_str (master_text st)) then (None, None)
            else (Some (Utils.with_header (version mv) (master_text st)),
                  Some (Utils.with_header (version mv) (best_text st)))
      end
  end.

(** *** The batch run

    What the run does to the outside is kept in a [World]: the files
    written, the lines printed (as events) and the calls of
    [session.streams] with the session they were made on. *)

Inductive event : Type :=
| PrintStart
| PrintConfigError (e : exn)
| PrintProcessing (slug : string)
| PrintUrl (url : string)
| PrintNoStreams
| PrintNoMultivariant
| PrintSuccess
| PrintError (e : exn)
| PrintSummary
| PrintSuccessCount (n : nat)
| PrintFailedCount (n : nat)
| PrintTotal (n : nat).

Record World : Type := {
  files : gmap string string;
  stdout : list event;
  requests : list (Streamlink * string)
}.

(** The collaborators the run calls.  The first argument of
    [session_streams] and [open_write] is the number of the channel
    being processed, so the same URL or path may behave differently
    from one channel to the next. *)
Record Env : Type := {
  session_streams : nat -> Streamlink -> string -> res Streams;
  os_makedirs : string -> res unit;
  open_write : nat -> string -> res unit
}.

(** Statements that change the world and may raise; the world a
    statement has reached is kept when it raises. *)
Definition M (A : Type) : Type := World -> res A * World.

Definition ret {A} (a : A) : M A := fun w => (Ret a, w).

Definition mbind {A B} (m : M A) (k : A -> M B) : M B := fun w =>
  match m w with
  | (Ret a, w') => k a w'
  | (Raise e, w') => (Raise e, w')
  end.

Notation "x <-- m ;; k" := (mbind m (fun x => k))
  (at level 100, m at next level, right associativity, only parsing).
Notation "m ;;; k" := (mbind m (fun _ => k))
  (at level 100, right associativity, only parsing).

(** [try: body except Exception as e: handler(e)]. *)
Definition try_except {A} (body : M A) (handler : exn -> M A) : M A := fun w =>
  match body w with
  | (Ret a, w') => (Ret a, w')
  | (Raise e, w') => handler e w'
  end.

Definition lift {A} (r : res A) : M A := fun w => (r, w).

Definition print (e : event) : M unit := fun w =>
  (Ret tt, {| files := files w; stdout := stdout w ++ [e]; requests := requests w |}).

(** [os.path.join(a, b)] of [posixpath]. *)
Definition os_path_join (a b : string) : string :=
  if String.prefix "/" b then b
  else if negb (Py.truthy_str a) || Py.ends_with "/" a then a +:+ b
  else a +:+ "/" +:+ b.

Section Run.
Variable env : Env.

(** [get_streams(url, headers)], called for channel number [n]. *)
Definition get_streams (n : nat) (url : string) (headers : option Headers)
    : M Streams := fun w =>
  let session := new_session in
  let default_headers : Headers := {[ "User-Agent" := "Mozilla/5.0" ]} in
  let default_headers :=
    match headers with
    | Some h => if truthy_dict h then dict_update default_headers h
                else default_headers
    | None => default_headers
    end in
  let session := set_option session "http-headers" default_headers in
  (session_streams env n session url,
   {| files := files w; stdout := stdout w;
      requests := requests w ++ [(session, url)] |}).

(** [with open(path, "w") as f: f.write(text)]. *)
Definition write_file (n : nat) (path : string) (text : option string) : M unit :=
  fun w =>
  match open_write env n path with
  | Raise e => (Raise e, w)
  | Ret _ =>
      match text with
      | None =>
          (Raise (TypeError "write() argument must be str, not None"),
           {| files := <[path := EmptyString]> (files w);
              stdout := stdout w; requests := requests w |})
      | Some t =>
          (Ret tt, {| files := <[path := t]> (files w);
                      stdout := stdout w; requests := requests w |})
      end
  end.

(** The local variables [success] and [fail]. *)
Record counters : Type := {
  success : nat;
  fail : nat
}.

Definition failed (c : counters) : counters :=
  {| success := success c; fail := S (fail c) |}.

Definition succeeded (c : counters) : counters :=
  {| success := S (success c); fail := fail c |}.

(** [if not master_text]. *)
Definition falsy_text (t : option string) : bool :=
  match t with
  | Some s => negb (Py.truthy_str s)
  | None => true
  end.

(** One turn of [for channel in channels], for channel number [n]. *)
Definition process_channel (master_folder best_folder : string)
    (n : nat) (ch : channel) (c : counters) : M counters :=
  let slug := slug ch in
  let url := url ch in
  let headers := headers ch in
  print (PrintProcessing slug) ;;;
  print (PrintUrl url) ;;;
  try_except
    (streams <-- get_streams n url headers ;;
     if negb (truthy_streams streams) then
       print PrintNoStreams ;;;
       ret (failed c)
     else
       let '(master_text, best_text) := build_playlists streams in
       if falsy_text master_text then
         print PrintNoMultivariant ;;;
         ret (failed c)
       else
         let master_path := os_path_join master_folder (slug +:+ ".m3u8") in
         let best_path := os_path_join best_folder (slug +:+ ".m3u8") in
         write_file n master_path master_text ;;;
         write_file n best_path best_text ;;;
         print PrintSuccess ;;;
         ret (succeeded c))
    (fun e =>
       print (PrintError e) ;;;
       ret (failed c)).

Fixpoint for_channels (master_folder best_folder : string)
    (n : nat) (chs : list channel) (c : counters) : M counters :=
  match chs with
  | [] => ret c
  | ch :: rest =>
      c' <-- process_channel master_folder best_folder n ch c ;;
      for_channels master_folder best_folder (S n) rest c'
  end.

(** [main()], given what loading the configuration file produced.
    The result is the code of [sys.exit], if it is reached. *)
Definition main (loaded : res config) : M (option Z) :=
  print PrintStart ;;;
  match loaded with
  | Raise e =>
      print (PrintConfigError e) ;;;
      ret (Some 1)
  | Ret config =>
      let output_config := output config in
      let channels := channels config in
      let root_folder := folder output_config in
      let best_folder := os_path_join root_folder (bestFolder output_config) in
      let master_folder := os_path_join root_folder (masterFolder output_config) in
      lift (os_makedirs env best_folder) ;;;
      lift (os_makedirs env master_folder) ;;;
      c <-- for_channels master_folder best_folder 0 channels
              {| success := 0; fail := 0 |} ;;
      print PrintSummary ;;;
      print (PrintSuccessCount (success c)) ;;;
      print (PrintFailedCount (fail c)) ;;;
      print (PrintTotal (length channels)) ;;;
      if Nat.eqb (success c) 0 then ret (Some 1) else ret None
  end.

(** The exit status of the process: the argument of [sys.exit], [0]
    when [main] returns, [1] when an exception leaves it. *)
Definition exit_status (r : res (option Z)) : Z :=
  match r with
  | Ret (Some code) => code
  | Ret None => 0
  | Raise _ => 1
  end.

End Run.

Definition empty_world : World :=
  {| files := ∅; stdout := []; requests := [] |}.

End Generate.

(** ** utils.py: folders and files

    The files are a map from path to content; whether a folder can be
    made, a file opened for writing or removed is up to the outside. *)

Module UtilsIO.

Record OutputPaths : Type := {
  root : string;
  best_dir : string;
  master_dir : string
}.

Record Env : Type := {
  os_getcwd : string;
  os_makedirs : string -> res unit;
  open_write : string -> res unit;
  os_remove : string -> res unit
}.

Abbreviation Files := (gmap string string).

(** [ensure_output_folders(output_cfg, cwd)]. *)
Definition ensure_output_folders (env : Env) (output_cfg : output_cfg)
    (cwd : option string) : res OutputPaths :=
  let base :=
    match cwd with
    | Some c => if Py.truthy_str c then c else os_getcwd env
    | None => os_getcwd env
    end in
  let root := Generate.os_path_join base (folder output_cfg) in
  let best_dir := Generate.os_path_join root (bestFolder output_cfg) in
  let master_dir := Generate.os_path_join root (masterFolder output_cfg) in
  _ <- os_makedirs env best_dir ;;
  _ <- os_makedirs env master_dir ;;
  Ret {| root := root; best_dir := best_dir; master_dir := master_dir |}.

Definition is_sep (c : ascii) : bool := Ascii.eqb c "/".

(** ["/" in s]. *)
Fixpoint has_sep (s : string) : bool :=
  match s with
  | EmptyString => false
  | String c rest => is_sep c || has_sep rest
  end.

(** [p[:p.rfind("/") + 1]]: the text up to the last slash, with it. *)
Fixpoint head_of (p : string) : string :=
  match p with
  | EmptyString => EmptyString
  | String c rest =>
      if has_sep rest then String c (head_of rest)
      else if is_sep c then String c EmptyString
      else EmptyString
  end.

(** [s == "/" * len(s)]. *)
Fixpoint all_sep (s : string) : bool :=
  match s with
  | EmptyString => true
  | String c rest => is_sep c && all_sep rest
  end.

(** [s.rstrip("/")]. *)
Fixpoint rstrip_sep (s : string) : string :=
  match s with
  | EmptyString => EmptyString
  | String c rest =>
      match rstrip_sep rest with
      | EmptyString => if is_sep c then EmptyString else String c EmptyString
      | String _ _ as r => String c r
      end
  end.

(** [os.path.dirname(p)] of [posixpath]. *)
Definition dirname (p : string) : string :=
  let head := head_of p in
  if Py.truthy_str head && negb (all_sep head) then rstrip_sep head else head.

(** [write_text_file(path, content)]. *)
Definition write_text_file (env : Env) (path content : string) (files : Files)
    : res unit * Files :=
  match os_makedirs env (dirname path) with
  | Raise e => (Raise e, files)
  | Ret _ =>
      match open_write env path with
      | Raise e => (Raise e, files)
      | Ret _ => (Ret tt, <[path := content]> files)
      end
  end.



(** An outside where everything works, but the empty path is no folder
    that can be made. *)
Definition env_posix : Env :=
  {| os_getcwd := "/srv/pstream";
     os_makedirs := fun p =>
       if Py.truthy_str p then Ret tt
       else Raise (OSError "No such file or directory");
     open_write := fun _ => Ret tt;
     os_remove := fun _ => Ret tt |}.


Definition output_sample : output_cfg :=
  {| folder := "output"; bestFolder := "best"; masterFolder := "/var/www/master" |}.

End UtilsIO.

(** ** Sample data *)

Module Sample.

Definition video_info (w h : Z) : StreamInfo :=
  {| program_id := None; bandwidth := None; codecs := None;
     resolution := Some {| width := w; height := h |};
     video := None |}.

Definition audio_info (w h : Z) : StreamInfo :=
  {| program_id := None; bandwidth := None; codecs := None;
     resolution := Some {| width := w; height := h |};
     video := Some "audio_only" |}.

Definition pl (info : StreamInfo) (u : string) : Playlist :=
  {| stream_info := Some info; uri := u |}.

Definition streams_of (v : option Z) (pls : list Playlist) : Streams :=
  {[ "best" := {| multivariant := Some {| playlists := pls; version := v |} |} ]}.

End Sample.

(** ** Regular expressions: the fragment of [re] the plugin uses

    A backtracking matcher in continuation style: alternatives are tried
    left to right, the quantifiers are greedy and give characters back
    one by one, and [search] tries the start positions from the left.
    All patterns of the plugin are compiled with [re.IGNORECASE], so a
    literal character matches both of its cases. *)

Module Re.

(** A character class. *)
Definition cls : Type := ascii -> bool.

Inductive regex : Type :=
| Lit (s : string)            (* literal text *)
| Set_ (p : cls)              (* one character of a class *)
| Star (p : cls)              (* [p*] *)
| Plus (p : cls)              (* [p+] *)
| Opt (r : regex)             (* [r?] *)
| Cat (r1 r2 : regex)         (* [r1 r2] *)
| Alt (r1 r2 : regex)         (* [r1|r2] *)
| Grp (name : string) (r : regex). (* [(?P<name>r)] *)

Definition code (c : ascii) : N := N_of_ascii c.

(** ASCII lower case. *)
Definition lower (c : ascii) : ascii :=
  if N.leb 65 (code c) && N.leb (code c) 90
  then ascii_of_N (code c + 32) else c.

Definition eqb_nocase (a b : ascii) : bool :=
  Ascii.eqb (lower a) (lower b).

(** [\s] on code points below 256. *)
Definition space : cls := fun c =>
  let n := code c in
  (N.leb 9 n && N.leb n 13) || (N.leb 28 n && N.leb n 32)
  || N.eqb n 133 || N.eqb n 160.

(** [[^...]]: none of the characters of [chars], and not of [extra]. *)
Definition none_of (chars : string) (extra : cls) : cls := fun c =>
  negb (existsb (Ascii.eqb c) (list_ascii_of_string chars)) && negb (extra c).

Definition one_of (chars : string) : cls := fun c =>
  existsb (Ascii.eqb c) (list_ascii_of_string chars).

Definition no_extra : cls := fun _ => false.

(** The capture groups of a match. *)
Abbreviation groups := (gmap string string).

(** The text consumed between [s] and its suffix [rest]. *)
Definition consumed (s rest : string) : string :=
  String.substring 0 (String.length s - String.length rest) s.

Section Matcher.
Context {A : Type}.

(** A literal, compared without case, then the continuation. *)
Fixpoint lit (l s : string) (k : string -> option A) : option A :=
  match l with
  | EmptyString => k s
  | String a l' =>
      match s with
      | String c s' => if eqb_nocase a c then lit l' s' k else None
      | EmptyString => None
      end
  end.

(** Greedy [p*]: the longest run first, then shorter ones. *)
Fixpoint star (p : cls) (s : string) (k : string -> option A) : option A :=
  match s with
  | String c s' =>
      if p c then
        match star p s' k with
        | Some x => Some x
        | None => k s
        end
      else k s
  | EmptyString => k s
  end.

Fixpoint run (r : regex) (s : string) (g : groups)
    (k : string -> groups -> option A) : option A :=
  match r with
  | Lit l => lit l s (fun rest => k rest g)
  | Set_ p =>
      match s with
      | String c s' => if p c then k s' g else None
      | EmptyString => None
      end
  | Star p => star p s (fun rest => k rest g)
  | Plus p =>
      match s with
      | String c s' => if p c then star p s' (fun rest => k rest g) else None
      | EmptyString => None
      end
  | Opt r1 =>
      match run r1 s g k with
      | Some x => Some x
      | None => k s g
      end
  | Cat r1 r2 => run r1 s g (fun rest g' => run r2 rest g' k)
  | Alt r1 r2 =>
      match run r1 s g k with
      | Some x => Some x
      | None => run r2 s g k
      end
  | Grp name r1 =>
      run r1 s g (fun rest g' => k rest (<[name := consumed s rest]> g'))
  end.
End Matcher.

(** [pattern.match(s)]: a match that starts at the first character. *)
Definition match_here (r : regex) (s : string) : option groups :=
  run r s ∅ (fun _ g => Some g).

(** A match object: where the match starts, and its groups. *)
Record Match : Type := {
  start : nat;
  group : groups
}.

(** [pattern.search(s)], scanning from offset [i]. *)
Fixpoint search_from (r : regex) (i : nat) (s : string) : option Match :=
  match match_here r s with
  | Some g => Some {| start := i; group := g |}
  | None =>
      match s with
      | String _ s' => search_from r (S i) s'
      | EmptyString => None
      end
  end.

Definition search (r : regex) (s : string) : option Match :=
  search_from r 0 s.

(** [s[i:]]. *)
Fixpoint drop (i : nat) (s : string) : string :=
  match i, s with
  | O, _ => s
  | S i', String _ s' => drop i' s'
  | S _, EmptyString => EmptyString
  end.

(** *** What a pattern matches, without the order of the attempts *)

(** [l] and [pre] are the same text up to case. *)
Fixpoint eq_nocase (l pre : string) : bool :=
  match l, pre with
  | EmptyString, EmptyString => true
  | String a l', String c pre' => eqb_nocase a c && eq_nocase l' pre'
  | _, _ => false
  end.

(** Every character of [pre] is in the class [p]. *)
Fixpoint all_in (p : cls) (pre : string) : bool :=
  match pre with
  | EmptyString => true
  | String c pre' => p c && all_in p pre'
  end.

(** [produces r s g rest g']: the pattern [r] matches a prefix of [s]
    that leaves [rest], and turns the groups [g] into [g']. *)
Fixpoint produces (r : regex) (s : string) (g : groups)
    (rest : string) (g' : groups) : Prop :=
  match r with
  | Lit l => g' = g /\ exists pre, s = pre +:+ rest /\ eq_nocase l pre = true
  | Set_ p => g' = g /\ exists c, s = String c rest /\ p c = true
  | Star p => g' = g /\ exists pre, s = pre +:+ rest /\ all_in p pre = true
  | Plus p =>
      g' = g /\ exists c pre, s = String c pre +:+ rest
                             /\ p c = true /\ all_in p pre = true
  | Opt r1 => produces r1 s g rest g' \/ (rest = s /\ g' = g)
  | Cat r1 r2 =>
      exists mid gm, produces r1 s g mid gm /\ produces r2 mid gm rest g'
  | Alt r1 r2 => produces r1 s g rest g' \/ produces r2 s g rest g'
  | Grp name r1 =>
      exists g1, produces r1 s g rest g1 /\ g' = <[name := consumed s rest]> g1
  end.

(** The pattern has no group. *)
Fixpoint groupless (r : regex) : bool :=
  match r with
  | Lit _ | Set_ _ | Star _ | Plus _ => true
  | Opt r1 => groupless r1
  | Cat r1 r2 | Alt r1 r2 => groupless r1 && groupless r2
  | Grp _ _ => false
  end.

(** Every match of the pattern takes at least one character. *)
Fixpoint must_consume (r : regex) : bool :=
  match r with
  | Lit l => Py.truthy_str l
  | Set_ _ | Plus _ => true
  | Star _ | Opt _ => false
  | Cat r1 r2 => must_consume r1 || must_consume r2
  | Alt r1 r2 => must_consume r1 && must_consume r2
  | Grp _ r1 => must_consume r1
  end.

End Re.

(** ** eurostartv_plugin.py *)

Module EurostarTV.
Import Re.

Definition SQ : string := "'".
Definition quotes : string := Py.DQ +:+ SQ.
Definition BS : string := String (ascii_of_nat 92) EmptyString.

(** [https?://] *)
Definition http_scheme : regex :=
  Cat (Lit "http") (Cat (Opt (Lit "s")) (Lit "://")).

Definition _re_m3u8 : regex :=
  Grp "url"
    (Cat http_scheme
      (Cat (Plus (none_of (quotes +:+ BS) space))
        (Cat (Lit ".m3u8")
             (Star (none_of (quotes +:+ BS) space))))).

Definition _re_iframe : regex :=
  Cat (Lit "<iframe")
    (Cat (Plus (none_of ">" no_extra))
      (Cat (Lit "src=")
        (Cat (Set_ (one_of quotes))
          (Cat (Grp "src" (Plus (none_of quotes no_extra)))
               (Set_ (one_of quotes)))))).

(** The tail the three sub-forms of [_re_source_url] share: optional
    space, a colon, optional space, a quote, the group [name] holding
    the scheme and at least one character that is no quote, and a
    closing quote. *)
Definition quoted_url (name : string) : regex :=
  Cat (Star space)
    (Cat (Lit ":")
      (Cat (Star space)
        (Cat (Set_ (one_of quotes))
          (Cat (Grp name (Cat http_scheme (Plus (none_of quotes no_extra))))
               (Set_ (one_of quotes)))))).

Definition source_form : regex :=
  Cat (Lit "source")
    (Cat (Star space)
      (Cat (Lit ":")
        (Cat (Star space)
          (Cat (Lit "{")
            (Cat (Star space)
              (Cat (Lit "src") (quoted_url "src1"))))))).

Definition file_form : regex := Cat (Lit "file") (quoted_url "src2").

Definition hls_form : regex := Cat (Lit "hls") (quoted_url "src3").

Definition _re_source_url : regex :=
  Alt source_form (Alt file_form hls_form).

(** [_find_m3u8_in_text(text)]. *)
Definition _find_m3u8_in_text (text : string) : option string :=
  match search _re_m3u8 text with
  | Some m => group m !! "url"
  | None => None
  end.

(** [_find_player_source_url(text)]. *)
Definition _find_player_source_url (text : string) : option string :=
  match search _re_source_url text with
  | None => None
  | Some m =>
      Py.or_str (group m !! "src1")
        (Py.or_str (group m !! "src2") (group m !! "src3"))
  end.

(** The collaborators of the plugin: [self.session.http.get(url)]
    (its [text], or the exception it raises), [urljoin] of
    [urllib.parse], and [HLSStream.parse_variant_playlist] on the
    plugin's session. *)
Record Env : Type := {
  http_get : string -> res string;
  urljoin : string -> string -> string;
  parse_variant_playlist : string -> res Streams
}.

Section Plugin.
Variable env : Env.

(** [_fetch(url)], with the [text] of the response. *)
Definition _fetch (url : string) : res string := http_get env url.

(** [_find_iframe_url(html, base_url)]. *)
Definition _find_iframe_url (html base_url : string) : option string :=
  match search _re_iframe html with
  | None => None
  | Some m =>
      match group m !! "src" with
      | Some src => Some (urljoin env base_url src)
      | None => None
      end
  end.

(** [if x:] on an optional string. *)
Definition truthy_opt (x : option string) : bool :=
  match x with
  | Some s => Py.truthy_str s
  | None => false
  end.

(** [if src and ".m3u8" in src]. *)
Definition is_m3u8_source (x : option string) : bool :=
  match x with
  | Some s => Py.truthy_str s && Py.contains ".m3u8" s
  | None => false
  end.

(** The string of a value the code has tested to be true. *)
Definition the (x : option string) : string := default EmptyString x.

(** [return HLSStream.parse_variant_playlist(self.session, found)]. *)
Definition return_parsed (found : option string) : res (option Streams) :=
  streams <- parse_variant_playlist env (the found) ;;
  Ret (Some streams).

(** [_get_streams()] of the plugin made for [url]. *)
Definition _get_streams (url : string) : res (option Streams) :=
  html <- _fetch url ;;
  let m3u8 := _find_m3u8_in_text html in
  if truthy_opt m3u8 then return_parsed m3u8
  else
    let src := _find_player_source_url html in
    if is_m3u8_source src then return_parsed src
    else
      let iframe_url := _find_iframe_url html url in
      if truthy_opt iframe_url then
        html2 <- _fetch (the iframe_url) ;;
        let m3u8 := _find_m3u8_in_text html2 in
        if truthy_opt m3u8 then return_parsed m3u8
        else
          let src2 := _find_player_source_url html2 in
          if is_m3u8_source src2 then return_parsed src2
          else Ret None
      else Ret None.

End Plugin.

End EurostarTV.


(** ** What the properties speak about *)

(** Every variant of the list is audio only. *)
Definition all_audio_only (pls : list Playlist) : Prop :=
  Forall (fun pl => exists info,
            stream_info pl = Some info /\ video info = Some "audio_only") pls.

(** The heights of a list are monotonic in source order: they never
    rise, or they never fall. *)
Fixpoint never_rises (hs : list Z) : bool :=
  match hs with
  | a :: (b :: _) as rest => Z.leb b a && never_rises rest
  | _ => true
  end.

Fixpoint never_falls (hs : list Z) : bool :=
  match hs with
  | a :: (b :: _) as rest => Z.leb a b && never_falls rest
  | _ => true
  end.

Definition monotonic (hs : list Z) : bool := never_rises hs || never_falls hs.

(** Three video variants whose heights fall and then rise. *)
Definition zigzag : list Playlist :=
  [Sample.pl (Sample.video_info 1920 1080) "1080.m3u8";
   Sample.pl (Sample.video_info 854 480) "480.m3u8";
   Sample.pl (Sample.video_info 1280 720) "720.m3u8"].

(** An audio-only variant that carries the greatest height, then one
    video variant. *)
Definition audio_on_top : list Playlist :=
  [Sample.pl (Sample.audio_info 1920 1080) "audio.m3u8";
   Sample.pl (Sample.video_info 1280 720) "720.m3u8"].

(** Two variants without a resolution, the first of them audio only. *)
Definition no_resolution : list Playlist :=
  [{| stream_info := Some {| program_id := None; bandwidth := Some 64000;
                             codecs := None; resolution := None;
                             video := Some "audio_only" |};
      uri := "audio.m3u8" |};
   {| stream_info := Some {| program_id := None; bandwidth := Some 800000;
                             codecs := None; resolution := None;
                             video := None |};
      uri := "video.m3u8" |}].

(** The example of the specification: heights 1080, 720 and 480, the
    last one audio only. *)
Definition spec_example : list Playlist :=
  [Sample.pl (Sample.video_info 1920 1080) "1080.m3u8";
   Sample.pl (Sample.video_info 1280 720) "720.m3u8";
   Sample.pl (Sample.audio_info 854 480) "480.m3u8"].

(** *** The attribute line, as the specification words it *)

Module Extinf.

Definition option_list {A} (x : option A) : list A :=
  match x with Some a => [a] | None => [] end.

(** PROGRAM-ID, BANDWIDTH and CODECS, each when the code finds it true. *)
Definition program_id_attr (info : StreamInfo) : option string :=
  match program_id info with
  | Some p => if Py.truthy_value p
              then Some ("PROGRAM-ID=" +:+ Py.format_value p) else None
  | None => None
  end.

Definition bandwidth_attr (info : StreamInfo) : option string :=
  match bandwidth info with
  | Some b => if Py.truthy_int b
              then Some ("BANDWIDTH=" +:+ Py.str_of_int b) else None
  | None => None
  end.

Definition codecs_attr (info : StreamInfo) : option string :=
  match codecs info with
  | Some cs => if Py.truthy_list cs
               then Some ("CODECS=" +:+ Py.DQ +:+ Py.join "," cs +:+ Py.DQ)
               else None
  | None => None
  end.

(** RESOLUTION, when width and height are both there and not zero. *)
Definition resolution_attr (info : StreamInfo) : option string :=
  match resolution info with
  | Some r => if Py.truthy_int (width r) && Py.truthy_int (height r)
              then Some ("RESOLUTION=" +:+ Py.str_of_int (width r)
                         +:+ "x" +:+ Py.str_of_int (height r))
              else None
  | None => None
  end.

(** The attributes before RESOLUTION that are present, in the listed
    order. *)
Definition leading (info : StreamInfo) : list string :=
  option_list (program_id_attr info) ++ option_list (bandwidth_attr info)
  ++ option_list (codecs_attr info).

(** All attributes that are present, in the listed order. *)
Definition attributes (info : StreamInfo) : list string :=
  leading info ++ option_list (resolution_attr info).

(** The block the specification describes: the present attributes
    separated by commas, a newline, the URI, a newline. *)
Definition specified (info : StreamInfo) (url : string) : string :=
  "#EXT-X-STREAM-INF:" +:+ Py.join "," (attributes info)
  +:+ Py.NL +:+ url +:+ Py.NL.

(** The comma the code leaves behind the last attribute: there is one
    when RESOLUTION is not emitted and another attribute is. *)
Definition dangling (info : StreamInfo) : string :=
  match resolution_attr info, leading info with
  | None, _ :: _ => ","
  | _, _ => EmptyString
  end.

(** The block the code builds. *)
Definition built (info : StreamInfo) (url : string) : string :=
  "#EXT-X-STREAM-INF:" +:+ Py.join "," (attributes info) +:+ dangling info
  +:+ Py.NL +:+ url +:+ Py.NL.

(** [info_to_text] tests the width alone; the height is covered when
    it is not zero wherever the width is not. *)
Definition height_covered (info : StreamInfo) : Prop :=
  match resolution info with
  | Some r => Py.truthy_int (width r) = true -> Py.truthy_int (height r) = true
  | None => True
  end.

(** A variant with a bandwidth and nothing else. *)
Definition bandwidth_only : StreamInfo :=
  {| program_id := None; bandwidth := Some 800000; codecs := None;
     resolution := None; video := None |}.

(** A variant with every attribute. *)
Definition full : StreamInfo :=
  {| program_id := Some (Py.VStr "1"); bandwidth := Some 2500000;
     codecs := Some ["avc1.64001f"; "mp4a.40.2"];
     resolution := Some {| width := 1280; height := 720 |};
     video := None |}.

End Extinf.

(** *** The sub-forms of the player configuration *)

Module PlayerConfig.
Import Re EurostarTV.

(** The three sub-forms, in the order of their priority. *)
Inductive sub_form : Type := SourceSrc | File | Hls.




(** The letter a sub-form starts with. *)
Definition initial (k : sub_form) : ascii :=
  match k with
  | SourceSrc => "s"%char
  | File => "f"%char
  | Hls => "h"%char
  end.


End PlayerConfig.

(** *** Steps 2 and 3 of the resolver, and sample pages *)

Module Resolver.
Import EurostarTV.

(** The URL that steps 2 and 3 find in one text: the direct manifest
    URL, else the player-configuration URL when it holds [.m3u8]. *)
Definition steps_2_3 (text : string) : option string :=
  let m3u8 := _find_m3u8_in_text text in
  if truthy_opt m3u8 then m3u8
  else
    let src := _find_player_source_url text in
    if is_m3u8_source src then src else None.

Definition page_url : string := "https://example.com/watch".

Definition iframe_url : string := "https://example.com/embed/live".

(** A page without a manifest URL, with one iframe whose [src] is
    relative. *)
Definition outer_page : string :=
  "<html><body><iframe width='100%' src='/embed/live'></iframe></body></html>".

(** The page inside the iframe, with a manifest URL. *)
Definition inner_page : string :=
  "<script>player.setup({ file: 'https://cdn.example.com/live/master.m3u8?t=1' })</script>".

Definition manifest_url : string := "https://cdn.example.com/live/master.m3u8?t=1".

Definition unreachable : exn := PluginError "Unable to open URL".

(** What [urljoin] gives for a reference that starts with a slash and a
    base on [example.com]. *)
Definition join_on_host (base ref : string) : string :=
  "https://example.com" +:+ ref.

(** Both pages load. *)
Definition env_ok : Env :=
  {| http_get := fun u =>
       if String.eqb u page_url then Ret outer_page
       else if String.eqb u iframe_url then Ret inner_page
       else Raise unreachable;
     urljoin := join_on_host;
     parse_variant_playlist := fun u =>
       Ret (Sample.streams_of (Some 3)
              [{| stream_info := Some (Sample.video_info 1280 720); uri := u |}]) |}.

(** The outer page loads, the page of the iframe does not. *)
Definition env_iframe_down : Env :=
  {| http_get := fun u =>
       if String.eqb u page_url then Ret outer_page
       else Raise unreachable;
     urljoin := join_on_host;
     parse_variant_playlist := fun u => Ret ∅ |}.

End Resolver.

(** *** What the batch run is observed by *)

Module Batch.
Import Generate.

(** The slugs the run has printed a [Processing] line for. *)
Definition processed (out : list event) : list string :=
  omap (fun e => match e with PrintProcessing s => Some s | _ => None end) out.

(** The number of [Success] lines the run has printed. *)
Definition successes (out : list event) : nat :=
  length (omap (fun e => match e with PrintSuccess => Some tt | _ => None end) out).

(** The headers a channel is to be fetched with: the default
    [User-Agent], and over it the headers of the channel. *)
Definition sent_headers (h : option Headers) : Headers :=
  match h with
  | Some h => h ∪ {[ "User-Agent" := "Mozilla/5.0" ]}
  | None => {[ "User-Agent" := "Mozilla/5.0" ]}
  end.

(** [headers.get(k)] on the optional headers of a channel. *)
Definition channel_header (h : option Headers) (k : string) : option string :=
  match h with
  | Some h => h !! k
  | None => None
  end.

(** A session that has this one option and no other. *)
Definition session_for (h : option Headers) : Streamlink :=
  {| options := {[ "http-headers" := sent_headers h ]} |}.

(** The call of [session.streams] a channel is to cause. *)
Definition request_of (ch : channel) : Streamlink * string :=
  (session_for (headers ch), url ch).

Definition best_folder_of (cfg : config) : string :=
  os_path_join (folder (output cfg)) (bestFolder (output cfg)).

Definition master_folder_of (cfg : config) : string :=
  os_path_join (folder (output cfg)) (masterFolder (output cfg)).

(** The folders of the configuration can be made. *)
Definition folders_ok (env : Env) (cfg : config) : Prop :=
  os_makedirs env (best_folder_of cfg) = Ret tt
  /\ os_makedirs env (master_folder_of cfg) = Ret tt.

(** The four lines of the summary. *)
Definition summary (s f total : nat) : list event :=
  [PrintSummary; PrintSuccessCount s; PrintFailedCount f; PrintTotal total].

(** What one turn of the loop leaves behind, whatever the channel
    does: one more request, one more [Processing] line, and one more
    success or one more failure. *)
Record turn (ch : channel) (c : counters) (w : World) (c' : counters) (w' : World)
    : Prop := {
  turn_requests : requests w' = (requests w ++ [request_of ch])%list;
  turn_processed : processed (stdout w') = (processed (stdout w) ++ [slug ch])%list;
  turn_counted :
    (c' = succeeded c /\ successes (stdout w') = S (successes (stdout w)))
    \/ (c' = failed c /\ successes (stdout w') = successes (stdout w))
}.

(** Three channels; the second one brings headers of its own. *)
Definition three_channels : config :=
  {| output := {| folder := "output"; bestFolder := "best"; masterFolder := "master" |};
     channels :=
       [{| slug := "one"; url := "https://one.example/live"; headers := None |};
        {| slug := "two"; url := "https://two.example/live";
           headers := Some {[ "Referer" := "https://two.example/";
                              "User-Agent" := "curl/8" ]} |};
        {| slug := "three"; url := "https://three.example/live"; headers := None |}] |}.

(** The same channels with other headers on the second one. *)
Definition three_channels' : config :=
  {| output := {| folder := "out"; bestFolder := "b"; masterFolder := "m" |};
     channels :=
       [{| slug := "one"; url := "https://one.example/live"; headers := None |};
        {| slug := "two"; url := "https://two.example/live";
           headers := Some {[ "Cookie" := "secret" ]} |};
        {| slug := "three"; url := "https://three.example/live"; headers := None |}] |}.

(** Only the first channel has streams; the second has none and the
    third raises. *)
Definition env_first_only : Env :=
  {| session_streams := fun n _ u =>
       match n with
       | O => Ret (Sample.streams_of (Some 3)
                     [Sample.pl (Sample.video_info 1280 720) "720.m3u8"])
       | S O => Ret ∅
       | _ => Raise (PluginError "No plugin can handle URL")
       end;
     os_makedirs := fun _ => Ret tt;
     open_write := fun _ _ => Ret tt |}.

(** No channel has streams. *)
Definition env_none : Env :=
  {| session_streams := fun _ _ _ => Ret ∅;
     os_makedirs := fun _ => Ret tt;
     open_write := fun _ _ => Ret tt |}.

End Batch.

(** *** The bodies, as lists of blocks *)

Module Body.

(** The variants that are rendered, in the order of the list. *)
Definition survivors (l : list Playlist) : list Playlist :=
  List.filter survives l.

(** The block of a variant, as each module renders it. *)
Definition utils_block (pl : Playlist) : string :=
  match stream_info pl with
  | Some info => Utils.stream_info_to_extinf info (uri pl)
  | None => EmptyString
  end.

Definition generate_block (pl : Playlist) : string :=
  match stream_info pl with
  | Some info => Generate.info_to_text info (uri pl)
  | None => EmptyString
  end.

(** The blocks of a list of variants, one after the other. *)
Fixpoint blocks (block : Playlist -> string) (l : list Playlist) : string :=
  match l with
  | [] => EmptyString
  | pl :: rest => block pl +:+ blocks block rest
  end.

End Body.

(** *** The order of a master body *)

Module Order.

(** [a] may stand before [b] in a body that is best first. *)
Definition desc (a b : Playlist) : Prop :=
  Utils.height_of b <= Utils.height_of a.

(** The variant has the height [h]. *)
Definition has_height (h : Z) (pl : Playlist) : bool :=
  Z.eqb (Utils.height_of pl) h.

(** The multivariant playlist behind [streams["best"]], if there is one. *)
Definition multivariant_of (streams : Streams) : option M3U8 :=
  match streams !! "best" with
  | Some best_stream => multivariant best_stream
  | None => None
  end.

(** Two variants of the same height around a higher one, and an
    audio-only one. *)
Definition tie : list Playlist :=
  [Sample.pl (Sample.video_info 1280 720) "720a.m3u8";
   Sample.pl (Sample.audio_info 0 0) "audio.m3u8";
   Sample.pl (Sample.video_info 1920 1080) "1080.m3u8";
   Sample.pl (Sample.video_info 1280 720) "720b.m3u8"].

End Order.

(** *** Variants both renderers agree on *)

(** The height of the variant is covered, see [Extinf.height_covered]. *)
Definition covered (pl : Playlist) : Prop :=
  match stream_info pl with
  | Some info => Extinf.height_covered info
  | None => True
  end.

(** *** The characters of a manifest URL, and pages that lead nowhere *)

Module Manifest.
Import Re EurostarTV.

(** A character [_re_m3u8] lets into a URL: no quote, no backslash, no
    space. *)
Definition url_char : cls := none_of (quotes +:+ BS) space.

(** Whatever the pattern [r] takes from a text, it takes characters of
    the class [P] only. *)
Fixpoint only (P : cls) (r : regex) : Prop :=
  match r with
  | Lit l => forall pre, eq_nocase l pre = true -> all_in P pre = true
  | Set_ p | Star p | Plus p => forall c, p c = true -> P c = true
  | Opt r1 | Grp _ r1 => only P r1
  | Cat r1 r2 | Alt r1 r2 => only P r1 /\ only P r2
  end.

(** A page with a direct manifest URL behind a player configuration
    that names another one, which has a space in it. *)
Definition both_page : string :=
  "<script>setup({ file: 'https://cdn.example.com/my cfg.m3u8' }); var u = 'https://cdn.example.com/direct.m3u8?x=1';</script>".

(** A page inside an iframe that has no manifest URL, only a further
    iframe. *)
Definition relay_page : string :=
  "<html><iframe src='/embed/deeper'></iframe></html>".

Definition deeper_url : string := "https://example.com/embed/deeper".

(** The outer page leads to [relay_page], and that one to a page with a
    manifest URL. *)
Definition env_two_hops : Env :=
  {| http_get := fun u =>
       if String.eqb u Resolver.page_url then Ret Resolver.outer_page
       else if String.eqb u Resolver.iframe_url then Ret relay_page
       else if String.eqb u deeper_url then Ret Resolver.inner_page
       else Raise Resolver.unreachable;
     urljoin := Resolver.join_on_host;
     parse_variant_playlist := fun u => Ret ∅ |}.

(** The outer page is [both_page]. *)
Definition env_both : Env :=
  {| http_get := fun u => Ret both_page;
     urljoin := Resolver.join_on_host;
     parse_variant_playlist := fun u =>
       Ret (Sample.streams_of None
              [{| stream_info := Some (Sample.video_info 1280 720); uri := u |}]) |}.

End Manifest.

(** *** The files of a channel *)

Module Paths.
Import Generate.

(** The two files the run writes for a channel. *)
Definition master_path (master_folder : string) (ch : channel) : string :=
  os_path_join master_folder (slug ch +:+ ".m3u8").

Definition best_path (best_folder : string) (ch : channel) : string :=
  os_path_join best_folder (slug ch +:+ ".m3u8").

(** The world with one more line printed. *)
Definition printed (w : World) (out : list event) : World :=
  {| files := files w; stdout := (stdout w ++ out)%list; requests := requests w |}.

(** The first channel has streams, but its best file cannot be opened. *)
Definition env_best_locked : Env :=
  {| session_streams := fun _ _ _ =>
       Ret (Sample.streams_of (Some 3)
              [Sample.pl (Sample.video_info 1280 720) "720.m3u8"]);
     os_makedirs := fun _ => Ret tt;
     open_write := fun _ path =>
       if String.prefix "output/best" path
       then Raise (OSError "Permission denied") else Ret tt |}.

(** The output folders cannot be made. *)
Definition env_no_folders : Env :=
  {| session_streams := fun _ _ _ => Ret ∅;
     os_makedirs := fun _ => Raise (OSError "Read-only file system");
     open_write := fun _ _ => Ret tt |}.

Definition channel_one : channel :=
  {| slug := "one"; url := "https://one.example/live"; headers := None |}.

End Paths.

(** *** The URL pattern of the plugin

    The pattern [pluginmatcher] is given is compiled without flags, so
    its letters match their own case only. *)

Module Matcher.
Import Re.

(** A literal text, case by case. *)
Fixpoint exact (l : string) : regex :=
  match l with
  | EmptyString => Lit EmptyString
  | String a rest => Cat (Set_ (Ascii.eqb a)) (exact rest)
  end.

(** [https?://(www\.)?eurostartv\.com\.tr/canli-izle/?] *)
Definition url_pattern : regex :=
  Cat (exact "http")
    (Cat (Opt (exact "s"))
      (Cat (exact "://")
        (Cat (Opt (Grp "1" (exact "www.")))
          (Cat (exact "eurostartv.com.tr/canli-izle")
               (Opt (exact "/")))))).

(** [pattern.match(url)] finds a match. *)
Definition matches (url : string) : bool :=
  match match_here url_pattern url with
  | Some _ => true
  | None => false
  end.

End Matcher.

(** *** An iframe tag with [src] and [data-src] *)

Module IframeSrc.
Import EurostarTV.

(** A page without a manifest URL, with one iframe whose [src] is
    relative and which has the attribute [data-src] behind it. *)
Definition lazy_page : string :=
  "<html><body><iframe src='/embed/live' data-src='/lazy'></iframe></body></html>".

Definition lazy_url : string := "https://example.com/lazy".

(** The page behind [data-src], without a manifest URL. *)
Definition placeholder_page : string := "<html><body>loading</body></html>".

(** All three pages load; the page behind [src] is the one with the
    manifest URL. *)
Definition env_lazy : Env :=
  {| http_get := fun u =>
       if String.eqb u Resolver.page_url then Ret lazy_page
       else if String.eqb u Resolver.iframe_url then Ret Resolver.inner_page
       else if String.eqb u lazy_url then Ret placeholder_page
       else Raise Resolver.unreachable;
     urljoin := Resolver.join_on_host;
     parse_variant_playlist := fun u =>
       Ret (Sample.streams_of (Some 3)
              [{| stream_info := Some (Sample.video_info 1280 720); uri := u |}]) |}.

End IframeSrc.

(** * Properties of the synthesis *)

Section SortFacts.
Context {A : Type} (key : A -> Z).

Lemma insert_desc_perm x l : Permutation (Utils.insert_desc key x l) (x :: l).
Proof.
  induction l as [|y l IH]; simpl; [reflexivity|].
  destruct (Z.ltb (key x) (key y)); [|reflexivity].
  rewrite IH. apply perm_swap.
Qed.

Lemma sorted_reverse_perm l : Permutation (Utils.sorted_reverse key l) l.
Proof.
  induction l as [|x l IH]; simpl; [reflexivity|].
  rewrite insert_desc_perm. now constructor.
Qed.

Lemma sorted_reverse_length l :
  length (Utils.sorted_reverse key l) = length l.
Proof. apply Permutation_length, sorted_reverse_perm. Qed.

Lemma sorted_reverse_Forall (P : A -> Prop) l :
  Forall P l -> Forall P (Utils.sorted_reverse key l).
Proof.
  intros H. eapply Permutation_Forall; [|exact H].
  symmetry. apply sorted_reverse_perm.
Qed.
End SortFacts.

Lemma audio_only_not_survives pl :
  (exists info, stream_info pl = Some info /\ video info = Some "audio_only") ->
  survives pl = false.
Proof.
  intros (info & Hi & Hv). unfold survives, is_audio_only.
  rewrite Hi, Hv. reflexivity.
Qed.

(** A playlist that does not survive leaves the loop of
    [build_master_and_best] where it was. *)
Lemma utils_loop_skips l : forall i acc,
  Forall (fun pl => survives pl = false) l ->
  fold_left Utils.loop_body (combine (seq i (length l)) l) acc = acc.
Proof.
  induction l as [|pl l IH]; intros i acc H; simpl; [reflexivity|].
  inversion H as [|? ? Hpl Hl]; subst.
  rewrite IH by assumption.
  unfold Utils.loop_body. destruct acc as [m b].
  unfold survives in Hpl.
  destruct (stream_info pl) as [info|]; [|reflexivity].
  destruct (is_audio_only info); [reflexivity|discriminate].
Qed.

(** The same for the loop of [build_playlists]. *)
Lemma generate_loop_skips l : forall st,
  Forall (fun pl => survives pl = false) l ->
  fold_left Generate.loop_body l st = st.
Proof.
  induction l as [|pl l IH]; intros st H; simpl; [reflexivity|].
  inversion H as [|? ? Hpl Hl]; subst.
  rewrite <- (IH st Hl) at 2. f_equal.
  unfold Generate.loop_body. unfold survives in Hpl.
  destruct (stream_info pl) as [info|]; [|reflexivity].
  destruct (is_audio_only info); [reflexivity|discriminate].
Qed.

(** C5.  When the variant list is empty, and when every variant is audio
    only, both synthesis functions return [(None, None)]: neither a
    master body nor a best body is produced. *)
Theorem C5_empty_or_audio_only_gives_nothing
    (streams : Streams) (best_stream : Stream) (mv : M3U8) :
  streams !! "best" = Some best_stream ->
  multivariant best_stream = Some mv ->
  playlists mv = [] \/ all_audio_only (playlists mv) ->
  Utils.build_master_and_best streams = (None, None)
  /\ Generate.build_playlists streams = (None, None).
Proof.
  intros Hbest Hmv Hcase.
  unfold Utils.build_master_and_best, Generate.build_playlists.
  rewrite Hbest, Hmv.
  destruct Hcase as [Hnil | Haudio].
  - rewrite Hnil. split; reflexivity.
  - assert (Hdead : Forall (fun pl => survives pl = false) (playlists mv)).
    { eapply Forall_impl; [exact Haudio|].
      intros pl Hpl. now apply audio_only_not_survives. }
    destruct (negb (Py.truthy_list (playlists mv))); [split; reflexivity|].
    split.
    + unfold Utils.enumerate.
      rewrite utils_loop_skips
        by (apply sorted_reverse_Forall; exact Hdead).
      reflexivity.
    + rewrite generate_loop_skips by exact Hdead. reflexivity.
Qed.

Lemma C5_witness :
  Utils.build_master_and_best
    (Sample.streams_of (Some 3)
       [Sample.pl (Sample.audio_info 0 0) "a1"; Sample.pl (Sample.audio_info 0 0) "a2"])
    = (None, None)
  /\ Generate.build_playlists
    (Sample.streams_of (Some 3)
       [Sample.pl (Sample.audio_info 0 0) "a1"; Sample.pl (Sample.audio_info 0 0) "a2"])
    = (None, None).
Proof.
  apply (C5_empty_or_audio_only_gives_nothing
           (Sample.streams_of (Some 3)
              [Sample.pl (Sample.audio_info 0 0) "a1";
               Sample.pl (Sample.audio_info 0 0) "a2"])
           {| multivariant := Some
                {| playlists := [Sample.pl (Sample.audio_info 0 0) "a1";
                                 Sample.pl (Sample.audio_info 0 0) "a2"];
                   version := Some 3 |} |}
           {| playlists := [Sample.pl (Sample.audio_info 0 0) "a1";
                            Sample.pl (Sample.audio_info 0 0) "a2"];
              version := Some 3 |}).
  - reflexivity.
  - reflexivity.
  - right. repeat constructor; eexists; split; reflexivity.
Defined.

(** C3.  On a variant list whose heights are not monotonic in source
    order (1080, 480, 720) the single pass of [build_playlists] and the
    stable descending sort of [build_master_and_best] give different
    master bodies: the first lists 720, 1080, 480 and the second 1080,
    720, 480.  So the two functions are not equal. *)
Theorem C3_single_pass_differs_from_sort :
  exists pls : list Playlist,
    monotonic (map Utils.height_of pls) = false
    /\ fst (Generate.build_playlists (Sample.streams_of None pls))
       = Some (Utils.with_header None
                 (Generate.info_to_text (Sample.video_info 1280 720) "720.m3u8"
                  +:+ Generate.info_to_text (Sample.video_info 1920 1080) "1080.m3u8"
                  +:+ Generate.info_to_text (Sample.video_info 854 480) "480.m3u8"))
    /\ fst (Utils.build_master_and_best (Sample.streams_of None pls))
       = Some (Utils.with_header None
                 (Utils.stream_info_to_extinf (Sample.video_info 1920 1080) "1080.m3u8"
                  +:+ Utils.stream_info_to_extinf (Sample.video_info 1280 720) "720.m3u8"
                  +:+ Utils.stream_info_to_extinf (Sample.video_info 854 480) "480.m3u8"))
    /\ fst (Generate.build_playlists (Sample.streams_of None pls))
       <> fst (Utils.build_master_and_best (Sample.streams_of None pls))
    /\ Generate.build_playlists <> Utils.build_master_and_best.
Proof.
  exists zigzag.
  assert (Hne : fst (Generate.build_playlists (Sample.streams_of None zigzag))
                <> fst (Utils.build_master_and_best (Sample.streams_of None zigzag))).
  { vm_compute. discriminate. }
  split; [reflexivity|].
  split; [vm_compute; reflexivity|].
  split; [vm_compute; reflexivity|].
  split; [exact Hne|].
  intros Heq. apply Hne. rewrite Heq. reflexivity.
Qed.

(** C1 (the code at the failing inputs).  [audio_on_top] has one variant
    that is not audio only, behind an audio-only one of greater height:
    [build_playlists] lists it in the master body,
    [build_master_and_best] returns no master body.  [zigzag] has
    the heights 1080, 480, 720: the master body of
    [build_master_and_best] starts with the 1080 block, the one of
    [build_playlists] with the 720 block. *)
Theorem C1_master_at_failing_inputs :
  Utils.build_master_and_best (Sample.streams_of None audio_on_top) = (None, None)
  /\ fst (Generate.build_playlists (Sample.streams_of None audio_on_top))
     = Some (Utils.with_header None
               (Generate.info_to_text (Sample.video_info 1280 720) "720.m3u8"))
  /\ fst (Generate.build_playlists (Sample.streams_of None zigzag))
     = Some (Utils.with_header None
               (Generate.info_to_text (Sample.video_info 1280 720) "720.m3u8"
                +:+ Generate.info_to_text (Sample.video_info 1920 1080) "1080.m3u8"
                +:+ Generate.info_to_text (Sample.video_info 854 480) "480.m3u8"))
  /\ fst (Utils.build_master_and_best (Sample.streams_of None zigzag))
     = Some (Utils.with_header None
               (Utils.stream_info_to_extinf (Sample.video_info 1920 1080) "1080.m3u8"
                +:+ Utils.stream_info_to_extinf (Sample.video_info 1280 720) "720.m3u8"
                +:+ Utils.stream_info_to_extinf (Sample.video_info 854 480) "480.m3u8")).
Proof. repeat split; vm_compute; reflexivity. Qed.

(** C2 (the code at the failing inputs).  On [audio_on_top] the best
    body of [build_playlists] is the 720 block, and
    [build_master_and_best] returns no best body.  On [zigzag] the best
    body of [build_master_and_best] is the 1080 block, the one of
    [build_playlists] the 720 block.  On [no_resolution], whose only
    surviving variant has no resolution, the best body of
    [build_playlists] is the header line alone and
    [build_master_and_best] returns none. *)
Theorem C2_best_at_failing_inputs :
  snd (Utils.build_master_and_best (Sample.streams_of None audio_on_top)) = None
  /\ snd (Generate.build_playlists (Sample.streams_of None audio_on_top))
     = Some (Utils.with_header None
               (Generate.info_to_text (Sample.video_info 1280 720) "720.m3u8"))
  /\ snd (Generate.build_playlists (Sample.streams_of None zigzag))
     = Some (Utils.with_header None
               (Generate.info_to_text (Sample.video_info 1280 720) "720.m3u8"))
  /\ snd (Utils.build_master_and_best (Sample.streams_of None zigzag))
     = Some (Utils.with_header None
               (Utils.stream_info_to_extinf (Sample.video_info 1920 1080) "1080.m3u8"))
  /\ snd (Generate.build_playlists (Sample.streams_of None no_resolution))
     = Some ("#EXTM3U" +:+ Py.NL)
  /\ snd (Utils.build_master_and_best (Sample.streams_of None no_resolution)) = None.
Proof. repeat split; vm_compute; reflexivity. Qed.

(** The example of the specification, [spec_example]: both functions
    list 1080 then 720 in the master body and give the 1080 block as the
    best body. *)
Lemma spec_example_utils :
  Utils.build_master_and_best (Sample.streams_of None spec_example)
  = (Some (Utils.with_header None
             (Utils.stream_info_to_extinf (Sample.video_info 1920 1080) "1080.m3u8"
              +:+ Utils.stream_info_to_extinf (Sample.video_info 1280 720) "720.m3u8")),
     Some (Utils.with_header None
             (Utils.stream_info_to_extinf (Sample.video_info 1920 1080) "1080.m3u8"))).
Proof. vm_compute. reflexivity. Qed.

Lemma spec_example_generate :
  Generate.build_playlists (Sample.streams_of None spec_example)
  = (Some (Utils.with_header None
             (Generate.info_to_text (Sample.video_info 1920 1080) "1080.m3u8"
              +:+ Generate.info_to_text (Sample.video_info 1280 720) "720.m3u8")),
     Some (Utils.with_header None
             (Generate.info_to_text (Sample.video_info 1920 1080) "1080.m3u8"))).
Proof. vm_compute. reflexivity. Qed.

(** * Properties of the attribute line *)

Lemma append_cons (x : ascii) (a b : string) :
  String x a +:+ b = String x (a +:+ b).
Proof. reflexivity. Qed.

Lemma append_nil_l (a : string) : EmptyString +:+ a = a.
Proof. reflexivity. Qed.

Lemma append_assoc (a b c : string) : (a +:+ b) +:+ c = a +:+ (b +:+ c).
Proof.
  induction a as [|x a IH]; [reflexivity|].
  rewrite !append_cons. now rewrite IH.
Qed.

Lemma append_nil_r (a : string) : a +:+ EmptyString = a.
Proof.
  induction a as [|x a IH]; [reflexivity|].
  rewrite append_cons. now rewrite IH.
Qed.

(** Brings both sides of an equation between concatenations to the same
    shape. *)
Ltac normalize_strings :=
  simpl;
  repeat (rewrite append_assoc || rewrite append_nil_l || rewrite append_nil_r).

(** [stream_info_to_extinf] builds the specified list of attributes and
    leaves the dangling comma behind it. *)
Lemma stream_info_to_extinf_built info url :
  Utils.stream_info_to_extinf info url = Extinf.built info url.
Proof.
  unfold Utils.stream_info_to_extinf, Extinf.built, Extinf.dangling,
    Extinf.attributes, Extinf.leading, Extinf.program_id_attr,
    Extinf.bandwidth_attr, Extinf.codecs_attr, Extinf.resolution_attr.
  destruct (program_id info) as [p|]; [destruct (Py.truthy_value p)|];
  (destruct (bandwidth info) as [b|]; [destruct (Py.truthy_int b)|]);
  (destruct (codecs info) as [cs|]; [destruct (Py.truthy_list cs)|]);
  (destruct (resolution info) as [r|];
   [destruct (Py.truthy_int (width r) && Py.truthy_int (height r))|]);
  normalize_strings; reflexivity.
Qed.

(** Where the height is covered, [info_to_text] builds the same block. *)
Lemma info_to_text_agrees info url :
  Extinf.height_covered info ->
  Generate.info_to_text info url = Utils.stream_info_to_extinf info url.
Proof.
  unfold Extinf.height_covered, Generate.info_to_text, Utils.stream_info_to_extinf.
  destruct (resolution info) as [r|]; [|reflexivity].
  destruct (Py.truthy_int (width r)); simpl; [|reflexivity].
  intros H. rewrite (H eq_refl). reflexivity.
Qed.

(** C4 (the code at the failing inputs).  For a variant with a
    bandwidth and nothing else both renderers leave a comma before the
    newline, where the specified block has none; and for a resolution of
    width 1280 and height 0 [info_to_text] writes RESOLUTION=1280x0,
    which [stream_info_to_extinf] and the specified block leave out.  So
    neither renderer builds the specified block for every variant. *)
Theorem C4_line_at_failing_inputs :
  Utils.stream_info_to_extinf Extinf.bandwidth_only "v.m3u8"
    = "#EXT-X-STREAM-INF:BANDWIDTH=800000," +:+ Py.NL +:+ "v.m3u8" +:+ Py.NL
  /\ Generate.info_to_text Extinf.bandwidth_only "v.m3u8"
    = "#EXT-X-STREAM-INF:BANDWIDTH=800000," +:+ Py.NL +:+ "v.m3u8" +:+ Py.NL
  /\ Extinf.specified Extinf.bandwidth_only "v.m3u8"
    = "#EXT-X-STREAM-INF:BANDWIDTH=800000" +:+ Py.NL +:+ "v.m3u8" +:+ Py.NL
  /\ Generate.info_to_text (Sample.video_info 1280 0) "v.m3u8"
    = "#EXT-X-STREAM-INF:RESOLUTION=1280x0" +:+ Py.NL +:+ "v.m3u8" +:+ Py.NL
  /\ Utils.stream_info_to_extinf (Sample.video_info 1280 0) "v.m3u8"
    = "#EXT-X-STREAM-INF:" +:+ Py.NL +:+ "v.m3u8" +:+ Py.NL
  /\ Extinf.specified (Sample.video_info 1280 0) "v.m3u8"
    = "#EXT-X-STREAM-INF:" +:+ Py.NL +:+ "v.m3u8" +:+ Py.NL
  /\ ~ (forall info url,
          Utils.stream_info_to_extinf info url = Extinf.specified info url)
  /\ ~ (forall info url,
          Generate.info_to_text info url = Extinf.specified info url).
Proof.
  do 6 (split; [vm_compute; reflexivity|]).
  split; intros H; specialize (H Extinf.bandwidth_only "v.m3u8");
    vm_compute in H; discriminate H.
Qed.

Lemma dangling_cases info :
  Extinf.dangling info = EmptyString \/ Extinf.dangling info = ",".
Proof.
  unfold Extinf.dangling.
  destruct (Extinf.resolution_attr info); [now left|].
  destruct (Extinf.leading info); [now left|now right].
Qed.

(** The block that is built is the specified one exactly where no comma
    is left behind the attributes. *)
Lemma built_specified_iff info url :
  Extinf.built info url = Extinf.specified info url
  <-> Extinf.dangling info = EmptyString.
Proof.
  unfold Extinf.built, Extinf.specified. split.
  - intros H.
    apply (inj (String.append _)) in H. apply (inj (String.append _)) in H.
    destruct (dangling_cases info) as [Hd|Hd]; [exact Hd|].
    rewrite Hd in H. discriminate H.
  - intros ->. reflexivity.
Qed.

(** RESOLUTION is among the attributes exactly when the resolution has a
    width and a height that are both not zero. *)
Lemma resolution_attr_iff info :
  is_Some (Extinf.resolution_attr info)
  <-> exists r, resolution info = Some r /\ width r <> 0 /\ height r <> 0.
Proof.
  unfold Extinf.resolution_attr, Py.truthy_int.
  destruct (resolution info) as [r|].
  - destruct (Z.eqb_spec (width r) 0) as [Hw|Hw];
      destruct (Z.eqb_spec (height r) 0) as [Hh|Hh]; simpl; split.
    all: try (intros [x Hx]; discriminate Hx).
    all: try (intros (r' & Hr & Hw' & Hh'); injection Hr as <-; contradiction).
    + intros _. exists r. auto.
    + intros _. eexists. reflexivity.
  - split.
    + intros [x Hx]. discriminate Hx.
    + intros (r & Hr & _). discriminate Hr.
Qed.

(** The layout of the attribute line.  For every variant
    [stream_info_to_extinf] builds the tag, the present attributes in the
    order PROGRAM-ID, BANDWIDTH, CODECS, RESOLUTION separated by commas,
    one more comma when RESOLUTION is not emitted and another attribute
    is, a newline, the URI and a newline; [info_to_text] builds the same
    for every variant whose height is covered.  That block is the
    specified one exactly when the extra comma is not there, and
    RESOLUTION is emitted exactly when width and height are both there
    and not zero. *)
Theorem attribute_line_layout (info : StreamInfo) (url : string) :
  Utils.stream_info_to_extinf info url = Extinf.built info url
  /\ (Extinf.height_covered info ->
      Generate.info_to_text info url = Extinf.built info url)
  /\ (Extinf.built info url = Extinf.specified info url
      <-> Extinf.dangling info = EmptyString)
  /\ (is_Some (Extinf.resolution_attr info)
      <-> exists r, resolution info = Some r /\ width r <> 0 /\ height r <> 0).
Proof.
  split; [apply stream_info_to_extinf_built|].
  split.
  - intros Hcov. rewrite (info_to_text_agrees info url Hcov).
    apply stream_info_to_extinf_built.
  - split; [apply built_specified_iff|apply resolution_attr_iff].
Qed.

Lemma attribute_line_layout_witness :
  Utils.stream_info_to_extinf Extinf.full "v.m3u8" = Extinf.built Extinf.full "v.m3u8"
  /\ Generate.info_to_text Extinf.full "v.m3u8" = Extinf.built Extinf.full "v.m3u8"
  /\ Extinf.built Extinf.full "v.m3u8" = Extinf.specified Extinf.full "v.m3u8".
Proof.
  destruct (attribute_line_layout Extinf.full "v.m3u8") as (Hu & Hg & Hs & _).
  split; [exact Hu|].
  split; [apply Hg; simpl; intros _; reflexivity|].
  apply Hs. reflexivity.
Defined.

(** The block of the variant with every attribute. *)
Lemma full_block :
  Utils.stream_info_to_extinf Extinf.full "v.m3u8"
  = "#EXT-X-STREAM-INF:PROGRAM-ID=1,BANDWIDTH=2500000,CODECS=" +:+ Py.DQ
    +:+ "avc1.64001f,mp4a.40.2" +:+ Py.DQ +:+ ",RESOLUTION=1280x720"
    +:+ Py.NL +:+ "v.m3u8" +:+ Py.NL.
Proof. vm_compute. reflexivity. Qed.

(** A width without a height: [info_to_text] emits RESOLUTION with the
    height [0], [stream_info_to_extinf] does not emit it. *)
Lemma width_without_height :
  Generate.info_to_text (Sample.video_info 1280 0) "v.m3u8"
    = "#EXT-X-STREAM-INF:RESOLUTION=1280x0" +:+ Py.NL +:+ "v.m3u8" +:+ Py.NL
  /\ Utils.stream_info_to_extinf (Sample.video_info 1280 0) "v.m3u8"
    = "#EXT-X-STREAM-INF:" +:+ Py.NL +:+ "v.m3u8" +:+ Py.NL.
Proof. split; vm_compute; reflexivity. Qed.

(** * Where the synthesis is best first *)

Module BodyFacts.
Import Body.

Lemma extinf_truthy info url :
  Py.truthy_str (Utils.stream_info_to_extinf info url) = true.
Proof. rewrite stream_info_to_extinf_built. reflexivity. Qed.

Lemma utils_block_truthy pl : survives pl = true -> Py.truthy_str (utils_block pl) = true.
Proof.
  unfold survives, utils_block. destruct (stream_info pl); [|discriminate].
  intros _. apply extinf_truthy.
Qed.

Lemma truthy_append a b : Py.truthy_str a = true -> Py.truthy_str (a +:+ b) = true.
Proof. destruct a; [discriminate|reflexivity]. Qed.

(** One turn of the loop of [build_master_and_best]. *)
Lemma utils_loop_body_step m b i pl :
  Utils.loop_body (m, b) (i, pl)
  = if survives pl
    then (m +:+ utils_block pl, if Nat.eqb i 0 then utils_block pl else b)
    else (m, b).
Proof.
  unfold Utils.loop_body, survives, utils_block.
  destruct (stream_info pl) as [info|]; [|reflexivity].
  destruct (is_audio_only info); reflexivity.
Qed.

(** The loop of [build_master_and_best], started at the index [i]: the
    master text gains the blocks of the survivors, and the best text is
    set only by a survivor that stands at index 0. *)
Lemma utils_loop_run l : forall i m b,
  fold_left Utils.loop_body (combine (seq i (length l)) l) (m, b)
  = (m +:+ blocks utils_block (survivors l),
     match i, l with
     | O, pl :: _ => if survives pl then utils_block pl else b
     | _, _ => b
     end).
Proof.
  induction l as [|pl l IH]; intros i m b.
  - simpl. rewrite append_nil_r. now destruct i.
  - cbn [length seq combine fold_left].
    rewrite utils_loop_body_step. unfold survivors. cbn [List.filter].
    fold (survivors l).
    destruct (survives pl); rewrite IH; cbn [blocks];
      rewrite ?append_assoc; destruct i; reflexivity.
Qed.

Lemma insert_desc_head {A} (key : A -> Z) x l y r :
  Utils.insert_desc key x l = y :: r ->
  key x <= key y /\ match l with h :: _ => key h <= key y | [] => True end.
Proof.
  destruct l as [|h t]; simpl.
  - intros H. injection H as <- _. split; [lia|exact I].
  - destruct (Z.ltb (key x) (key h)) eqn:Hlt; intros H; injection H as <- _.
    + apply Z.ltb_lt in Hlt. lia.
    + apply Z.ltb_ge in Hlt. lia.
Qed.

(** The first element of the sorted list has the greatest key. *)
Lemma sorted_reverse_head_max {A} (key : A -> Z) l : forall y r,
  Utils.sorted_reverse key l = y :: r ->
  Forall (fun x => key x <= key y) l.
Proof.
  induction l as [|x l IH]; intros y r H; [constructor|].
  simpl in H. destruct (insert_desc_head key _ _ _ _ H) as [Hx Hh].
  constructor; [exact Hx|].
  destruct (Utils.sorted_reverse key l) as [|h t] eqn:Hs.
  - assert (Hl : length l = 0%nat)
      by (rewrite <- (sorted_reverse_length key l), Hs; reflexivity).
    destruct l; [constructor|discriminate Hl].
  - eapply Forall_impl; [exact (IH h t eq_refl)|].
    intros z Hz. simpl in Hz. lia.
Qed.

Lemma survivors_perm l l' :
  Permutation l l' -> Permutation (survivors l) (survivors l').
Proof.
  unfold survivors. induction 1 as [|x l l' _ IH|x y l|l l' l'' _ IH1 _ IH2]; simpl.
  - constructor.
  - destruct (survives x); [now constructor|exact IH].
  - destruct (survives x), (survives y); try reflexivity. apply perm_swap.
  - now rewrite IH1.
Qed.

(** Where the variant sorted first survives, [build_master_and_best]
    does what the specification describes: the master body is the
    blocks of the survivors in sorted order, the best body the block of
    the first one, and no variant is higher than that one. *)
Theorem build_master_and_best_top_survives
    (streams : Streams) (best_stream : Stream) (mv : M3U8)
    (first : Playlist) (rest : list Playlist) :
  streams !! "best" = Some best_stream ->
  multivariant best_stream = Some mv ->
  Utils.sorted_reverse Utils.height_of (playlists mv) = first :: rest ->
  survives first = true ->
  Utils.build_master_and_best streams
  = (Some (Utils.with_header (version mv)
             (blocks utils_block (survivors (first :: rest)))),
     Some (Utils.with_header (version mv) (utils_block first)))
  /\ Forall (fun pl => Utils.height_of pl <= Utils.height_of first) (playlists mv)
  /\ Permutation (survivors (first :: rest)) (survivors (playlists mv)).
Proof.
  intros Hbest Hmv Hsorted Hfirst.
  split; [|split].
  - unfold Utils.build_master_and_best. rewrite Hbest, Hmv.
    destruct (playlists mv) as [|p ps] eqn:Hpl; [discriminate Hsorted|].
    simpl Py.truthy_list. simpl negb. cbv iota.
    rewrite Hsorted. unfold Utils.enumerate. rewrite utils_loop_run.
    rewrite Hfirst.
    assert (Hm : Py.truthy_str
                   (EmptyString +:+ blocks utils_block (survivors (first :: rest)))
                 = true).
    { unfold survivors. simpl List.filter. rewrite Hfirst. simpl blocks.
      rewrite append_nil_l. apply truthy_append. now apply utils_block_truthy. }
    rewrite Hm, (utils_block_truthy first Hfirst). simpl.
    now rewrite append_nil_l.
  - eapply sorted_reverse_head_max. exact Hsorted.
  - rewrite <- Hsorted. apply survivors_perm, sorted_reverse_perm.
Qed.

(** One turn of the loop of [build_playlists]. *)
Lemma generate_loop_body_step st pl :
  Generate.loop_body st pl
  = if survives pl
    then if Z.ltb (Generate.previous_res_height st) (Utils.height_of pl)
         then {| Generate.previous_res_height := Utils.height_of pl;
                 Generate.master_text := generate_block pl +:+ Generate.master_text st;
                 Generate.best_text := generate_block pl |}
         else {| Generate.previous_res_height := Utils.height_of pl;
                 Generate.master_text := Generate.master_text st +:+ generate_block pl;
                 Generate.best_text := Generate.best_text st |}
    else st.
Proof.
  unfold Generate.loop_body, survives, generate_block, Utils.height_of,
    Generate.height_attr.
  destruct (stream_info pl) as [info|]; [|reflexivity].
  destruct (is_audio_only info); reflexivity.
Qed.

(** The loop of [build_playlists] on variants whose heights never rise
    above the previous one: every block is put behind the master text,
    and the best text stays. *)
Lemma generate_loop_run l : forall st,
  never_rises (Generate.previous_res_height st
               :: map Utils.height_of (survivors l)) = true ->
  Generate.master_text (fold_left Generate.loop_body l st)
    = Generate.master_text st +:+ blocks generate_block (survivors l)
  /\ Generate.best_text (fold_left Generate.loop_body l st) = Generate.best_text st.
Proof.
  induction l as [|pl l IH]; intros st H.
  - simpl. now rewrite append_nil_r.
  - cbn [fold_left]. rewrite generate_loop_body_step.
    unfold survivors in *. cbn [List.filter] in *.
    destruct (survives pl); [|now apply IH].
    cbn [map never_rises] in H. apply andb_prop in H as [Hle Hrest].
    apply Z.leb_le in Hle.
    replace (Z.ltb (Generate.previous_res_height st) (Utils.height_of pl))
      with false by (symmetry; apply Z.ltb_ge; exact Hle).
    match goal with
    | |- context [fold_left _ l ?st'] => destruct (IH st') as [Hm Hb]
    end.
    { exact Hrest. }
    rewrite Hm, Hb. cbn [Generate.master_text Generate.best_text blocks].
    now rewrite append_assoc.
Qed.

(** The same loop up to the first survivor, which is higher than the
    height the loop starts with. *)
Lemma generate_loop_first l : forall st first rest,
  Generate.master_text st = EmptyString ->
  survivors l = first :: rest ->
  Generate.previous_res_height st < Utils.height_of first ->
  never_rises (map Utils.height_of (first :: rest)) = true ->
  Generate.master_text (fold_left Generate.loop_body l st)
    = blocks generate_block (first :: rest)
  /\ Generate.best_text (fold_left Generate.loop_body l st) = generate_block first.
Proof.
  induction l as [|pl l IH]; intros st first rest Hempty Hsurv Hlt Hnr;
    [discriminate Hsurv|].
  cbn [fold_left]. rewrite generate_loop_body_step.
  unfold survivors in Hsurv. cbn [List.filter] in Hsurv.
  destruct (survives pl); [|now apply IH].
  injection Hsurv as -> Hrest. fold (survivors l) in Hrest.
  apply Z.ltb_lt in Hlt. rewrite Hlt.
  match goal with
  | |- context [fold_left _ l ?st'] => destruct (generate_loop_run l st') as [Hm Hb]
  end.
  { cbn [Generate.previous_res_height]. rewrite Hrest. exact Hnr. }
  rewrite Hm, Hb. cbn [Generate.master_text Generate.best_text blocks].
  rewrite Hempty, Hrest, append_nil_r. auto.
Qed.

Lemma info_to_text_truthy info url :
  Py.truthy_str (Generate.info_to_text info url) = true.
Proof.
  unfold Generate.info_to_text.
  destruct (program_id info) as [p|]; [destruct (Py.truthy_value p)|];
  (destruct (bandwidth info) as [b|]; [destruct (Py.truthy_int b)|]);
  (destruct (codecs info) as [cs|]; [destruct (Py.truthy_list cs)|]);
  (destruct (resolution info) as [r|]; [destruct (Py.truthy_int (width r))|]);
  reflexivity.
Qed.

(** Where the heights of the survivors never rise in source order and
    the first of them is above 0, [build_playlists] does what the
    specification describes: the survivors are listed in source order,
    which is their sorted order, and the best body is the block of the
    first one. *)
Theorem build_playlists_heights_never_rise
    (streams : Streams) (best_stream : Stream) (mv : M3U8)
    (first : Playlist) (rest : list Playlist) :
  streams !! "best" = Some best_stream ->
  multivariant best_stream = Some mv ->
  survivors (playlists mv) = first :: rest ->
  0 < Utils.height_of first ->
  never_rises (map Utils.height_of (first :: rest)) = true ->
  Generate.build_playlists streams
  = (Some (Utils.with_header (version mv) (blocks generate_block (first :: rest))),
     Some (Utils.with_header (version mv) (generate_block first))).
Proof.
  intros Hbest Hmv Hsurv Hpos Hnr.
  unfold Generate.build_playlists. rewrite Hbest, Hmv.
  destruct (playlists mv) as [|p ps] eqn:Hpl; [discriminate Hsurv|].
  simpl Py.truthy_list. simpl negb. cbv iota.
  destruct (generate_loop_first (p :: ps) Generate.initial first rest
              eq_refl Hsurv Hpos Hnr) as [Hm Hb].
  cbn [fold_left] in Hm, Hb. cbn [fold_left]. cbv zeta. rewrite Hm, Hb.
  assert (Ht : Py.truthy_str (blocks generate_block (first :: rest)) = true).
  { simpl blocks. apply truthy_append.
    assert (Hf : survives first = true).
    { assert (Hin : In first (survivors (p :: ps))) by (rewrite Hsurv; now left).
      unfold survivors in Hin. apply List.filter_In in Hin. tauto. }
    unfold survives in Hf. unfold generate_block.
    destruct (stream_info first); [|discriminate Hf].
    apply info_to_text_truthy. }
  rewrite Ht. reflexivity.
Qed.

End BodyFacts.

(** * Properties of the matcher *)

Module ReFacts.
Import Re.

Lemma lit_sound {A} (l : string) : forall s (k : string -> option A) x,
  lit l s k = Some x ->
  exists pre rest, s = pre +:+ rest /\ eq_nocase l pre = true /\ k rest = Some x.
Proof.
  induction l as [|a l IH]; intros s k x H; simpl in H.
  - exists EmptyString, s. auto.
  - destruct s as [|c s]; [discriminate|].
    destruct (eqb_nocase a c) eqn:Hac; [|discriminate].
    destruct (IH _ _ _ H) as (pre & rest & -> & Hpre & Hk).
    exists (String c pre), rest. simpl. rewrite Hac, Hpre. auto.
Qed.

Lemma star_sound {A} (p : cls) : forall s (k : string -> option A) x,
  star p s k = Some x ->
  exists pre rest, s = pre +:+ rest /\ all_in p pre = true /\ k rest = Some x.
Proof.
  induction s as [|c s IH]; intros k x H; simpl in H.
  - exists EmptyString, EmptyString. auto.
  - destruct (p c) eqn:Hpc.
    + destruct (star p s k) as [y|] eqn:Hs.
      * injection H as <-.
        destruct (IH _ _ Hs) as (pre & rest & -> & Hpre & Hk).
        exists (String c pre), rest. simpl. rewrite Hpc, Hpre. auto.
      * exists EmptyString, (String c s). auto.
    + exists EmptyString, (String c s). auto.
Qed.

(** Whatever the matcher answers, it has got from its continuation,
    called on a rest and on groups that the pattern produces. *)
Lemma run_sound {A} (r : regex) : forall s g (k : string -> groups -> option A) x,
  run r s g k = Some x ->
  exists rest g', produces r s g rest g' /\ k rest g' = Some x.
Proof.
  induction r as [l|p|p|p|r1 IH1|r1 IH1 r2 IH2|r1 IH1 r2 IH2|name r1 IH1];
    intros s g k x H; simpl in H.
  - destruct (lit_sound _ _ _ _ H) as (pre & rest & -> & Hpre & Hk).
    exists rest, g. simpl. eauto.
  - destruct s as [|c s]; [discriminate|].
    destruct (p c) eqn:Hpc; [|discriminate].
    exists s, g. simpl. eauto.
  - destruct (star_sound _ _ _ _ H) as (pre & rest & -> & Hpre & Hk).
    exists rest, g. simpl. eauto.
  - destruct s as [|c s]; [discriminate|].
    destruct (p c) eqn:Hpc; [|discriminate].
    destruct (star_sound _ _ _ _ H) as (pre & rest & -> & Hpre & Hk).
    exists rest, g. simpl. split; [|exact Hk].
    split; [reflexivity|]. exists c, pre. auto.
  - destruct (run r1 s g k) as [y|] eqn:H1.
    + injection H as <-.
      destruct (IH1 _ _ _ _ H1) as (rest & g' & Hp & Hk).
      exists rest, g'. simpl. auto.
    + exists s, g. simpl. auto.
  - destruct (IH1 _ _ _ _ H) as (mid & gm & Hp1 & H2).
    destruct (IH2 _ _ _ _ H2) as (rest & g' & Hp2 & Hk).
    exists rest, g'. simpl. eauto.
  - destruct (run r1 s g k) as [y|] eqn:H1.
    + injection H as <-.
      destruct (IH1 _ _ _ _ H1) as (rest & g' & Hp & Hk).
      exists rest, g'. simpl. auto.
    + destruct (IH2 _ _ _ _ H) as (rest & g' & Hp & Hk).
      exists rest, g'. simpl. auto.
  - destruct (IH1 _ _ _ _ H) as (rest & g1 & Hp & Hk).
    exists rest, (<[name := consumed s rest]> g1). simpl. eauto.
Qed.

Lemma match_here_sound r s g :
  match_here r s = Some g -> exists rest, produces r s ∅ rest g.
Proof.
  intros H. destruct (run_sound _ _ _ _ _ H) as (rest & g' & Hp & Hk).
  injection Hk as <-. eauto.
Qed.

(** [search] returns the match at the first offset that has one. *)
Lemma search_from_first r : forall i s n g,
  (forall j, (j < i)%nat -> match_here r (drop j s) = None) ->
  match_here r (drop i s) = Some g ->
  search_from r n s = Some {| start := (n + i)%nat; group := g |}.
Proof.
  induction i as [|i IH]; intros s n g Hbefore Hhere.
  - simpl in Hhere. replace (n + 0)%nat with n by lia.
    destruct s; simpl; rewrite Hhere; reflexivity.
  - destruct s as [|c s].
    + exfalso. specialize (Hbefore 0%nat ltac:(lia)). simpl in *. congruence.
    + assert (H0 := Hbefore 0%nat ltac:(lia)). simpl in H0.
      simpl search_from. rewrite H0.
      replace (n + S i)%nat with (S n + i)%nat by lia.
      apply IH.
      * intros j Hj. apply (Hbefore (S j)). lia.
      * exact Hhere.
Qed.

Lemma search_first r s i g :
  (forall j, (j < i)%nat -> match_here r (drop j s) = None) ->
  match_here r (drop i s) = Some g ->
  search r s = Some {| start := i; group := g |}.
Proof. intros Hb Hh. apply (search_from_first r i s 0%nat g Hb Hh). Qed.

Lemma search_from_none r : forall s n,
  (forall j, match_here r (drop j s) = None) -> search_from r n s = None.
Proof.
  induction s as [|c s IH]; intros n H;
    assert (H0 := H 0%nat); simpl in H0; simpl; rewrite H0.
  - reflexivity.
  - apply IH. intros j. apply (H (S j)).
Qed.

End ReFacts.

(** * Properties of the player-configuration search *)

Module PlayerConfigFacts.
Import Re EurostarTV PlayerConfig ReFacts.

Lemma length_append (a b : string) :
  String.length (a +:+ b) = (String.length a + String.length b)%nat.
Proof.
  induction a as [|x a IH]; [reflexivity|].
  rewrite append_cons. simpl. now rewrite IH.
Qed.

Lemma consumed_append (pre rest : string) : consumed (pre +:+ rest) rest = pre.
Proof.
  unfold consumed. rewrite length_append.
  replace (String.length pre + String.length rest - String.length rest)%nat
    with (String.length pre) by lia.
  induction pre as [|x pre IH].
  - destruct rest; reflexivity.
  - change (String x (String.substring 0 (String.length pre) (pre +:+ rest))
            = String x pre).
    now rewrite IH.
Qed.


Lemma produces_groupless r : forall s g rest g',
  groupless r = true -> produces r s g rest g' -> g' = g.
Proof.
  induction r as [l|p|p|p|r1 IH1|r1 IH1 r2 IH2|r1 IH1 r2 IH2|name r1 IH1];
    intros s g rest g' Hg H; simpl in Hg; try discriminate Hg.
  - now destruct H.
  - now destruct H.
  - now destruct H.
  - now destruct H.
  - destruct H as [H|[_ H]]; eauto.
  - apply andb_prop in Hg as [Hg1 Hg2].
    destruct H as (mid & gm & H1 & H2).
    rewrite (IH2 _ _ _ _ Hg2 H2). eauto.
  - apply andb_prop in Hg as [Hg1 Hg2]. destruct H as [H|H]; eauto.
Qed.

Lemma produces_suffix r : forall s g rest g',
  produces r s g rest g' -> exists pre, s = pre +:+ rest.
Proof.
  induction r as [l|p|p|p|r1 IH1|r1 IH1 r2 IH2|r1 IH1 r2 IH2|name r1 IH1];
    intros s g rest g' H.
  - destruct H as (_ & pre & -> & _). eauto.
  - destruct H as (_ & c & -> & _). now exists (String c EmptyString).
  - destruct H as (_ & pre & -> & _). eauto.
  - destruct H as (_ & c & pre & -> & _). eauto.
  - destruct H as [H|[-> _]]; [eauto|]. now exists EmptyString.
  - destruct H as (mid & gm & H1 & H2).
    destruct (IH1 _ _ _ _ H1) as (p1 & ->).
    destruct (IH2 _ _ _ _ H2) as (p2 & ->).
    exists (p1 +:+ p2). now rewrite append_assoc.
  - destruct H as [H|H]; eauto.
  - destruct H as (g1 & H & _). eauto.
Qed.

Lemma produces_consumes r : forall s g rest g',
  must_consume r = true -> produces r s g rest g' ->
  exists c pre, s = String c pre +:+ rest.
Proof.
  induction r as [l|p|p|p|r1 IH1|r1 IH1 r2 IH2|r1 IH1 r2 IH2|name r1 IH1];
    intros s g rest g' Hc H; simpl in Hc; try discriminate Hc.
  - destruct H as (_ & pre & -> & Hpre).
    destruct l as [|a l]; [discriminate Hc|].
    destruct pre as [|c pre]; [discriminate Hpre|]. eauto.
  - destruct H as (_ & c & -> & _). now exists c, EmptyString.
  - destruct H as (_ & c & pre & -> & _). eauto.
  - destruct H as (mid & gm & H1 & H2).
    apply orb_prop in Hc as [Hc|Hc].
    + destruct (IH1 _ _ _ _ Hc H1) as (c & p1 & ->).
      destruct (produces_suffix _ _ _ _ _ H2) as (p2 & ->).
      exists c, (p1 +:+ p2). rewrite !append_cons. now rewrite append_assoc.
    + destruct (produces_suffix _ _ _ _ _ H1) as (p1 & ->).
      destruct (IH2 _ _ _ _ Hc H2) as (c & p2 & ->).
      destruct p1 as [|c1 p1].
      * now exists c, p2.
      * exists c1, (p1 +:+ String c p2).
        rewrite !append_cons. now rewrite !append_assoc.
  - apply andb_prop in Hc as [Hc1 Hc2]. destruct H as [H|H]; eauto.
  - destruct H as (g1 & H & _). eauto.
Qed.










End PlayerConfigFacts.




(** * Properties of the resolver *)

Module ResolverFacts.
Import EurostarTV Resolver.

Lemma steps_2_3_none text :
  steps_2_3 text = None ->
  truthy_opt (_find_m3u8_in_text text) = false
  /\ is_m3u8_source (_find_player_source_url text) = false.
Proof.
  unfold steps_2_3.
  destruct (_find_m3u8_in_text text) as [m|] eqn:Hm; simpl.
  - destruct (Py.truthy_str m); [discriminate|].
    destruct (is_m3u8_source (_find_player_source_url text)) eqn:Hs; [|auto].
    destruct (_find_player_source_url text); [discriminate|discriminate Hs].
  - destruct (is_m3u8_source (_find_player_source_url text)) eqn:Hs; [|auto].
    destruct (_find_player_source_url text); [discriminate|discriminate Hs].
Qed.

(** What [_get_streams] does with a text once the fetch is done. *)
Lemma steps_2_3_returned env text (otherwise : res (option Streams)) :
  (if truthy_opt (_find_m3u8_in_text text)
   then return_parsed env (_find_m3u8_in_text text)
   else if is_m3u8_source (_find_player_source_url text)
        then return_parsed env (_find_player_source_url text)
        else otherwise)
  = match steps_2_3 text with
    | Some found => streams <- parse_variant_playlist env found ;; Ret (Some streams)
    | None => otherwise
    end.
Proof.
  unfold steps_2_3, return_parsed.
  destruct (_find_m3u8_in_text text) as [m|]; simpl.
  - destruct (Py.truthy_str m); [reflexivity|].
    destruct (_find_player_source_url text) as [u|]; simpl; [|reflexivity].
    destruct (Py.truthy_str u && Py.contains ".m3u8" u); reflexivity.
  - destruct (_find_player_source_url text) as [u|]; simpl; [|reflexivity].
    destruct (Py.truthy_str u && Py.contains ".m3u8" u); reflexivity.
Qed.

(** Where the outer page loads and steps 2 and 3 find nothing in it,
    [_get_streams] fetches the URL joined from the page URL and the
    [src] of the first iframe, and runs steps 2 and 3 on that text. *)
Lemma get_streams_through_iframe env url html i g src :
  http_get env url = Ret html ->
  steps_2_3 html = None ->
  Re.match_here _re_iframe (Re.drop i html) = Some g ->
  g !! "src" = Some src ->
  (forall j, (j < i)%nat -> Re.match_here _re_iframe (Re.drop j html) = None) ->
  Py.truthy_str (urljoin env url src) = true ->
  _get_streams env url
  = (html2 <- http_get env (urljoin env url src) ;;
     match steps_2_3 html2 with
     | Some found => streams <- parse_variant_playlist env found ;; Ret (Some streams)
     | None => Ret None
     end).
Proof.
  intros Hget Hnone Hhere Hsrc Hfirst Htrue.
  unfold _get_streams, _fetch. rewrite Hget. simpl bind.
  destruct (steps_2_3_none _ Hnone) as [H2 H3]. rewrite H2, H3.
  unfold _find_iframe_url.
  rewrite (ReFacts.search_first _re_iframe html i g Hfirst Hhere).
  simpl Re.group. rewrite Hsrc. simpl truthy_opt. rewrite Htrue.
  simpl the.
  destruct (http_get env (urljoin env url src)) as [html2|e]; simpl bind;
    [|reflexivity].
  apply steps_2_3_returned.
Qed.

End ResolverFacts.

(** The fourth step.  The outer page loads and steps 2 and 3 find
    nothing in it; the pattern [_re_iframe] matches first at the offset
    [i] and captures [src] there.  Then the resolver fetches
    [urljoin(page URL, src)], and a manifest URL that steps 2 and 3 find
    in the fetched text is the one it hands on and returns the streams
    of. *)
Theorem captured_src_is_followed
    (env : EurostarTV.Env) (url html src html2 found : string)
    (i : nat) (g : Re.groups) :
  EurostarTV.http_get env url = Ret html ->
  Resolver.steps_2_3 html = None ->
  Re.match_here EurostarTV._re_iframe (Re.drop i html) = Some g ->
  g !! "src" = Some src ->
  (forall j, (j < i)%nat ->
     Re.match_here EurostarTV._re_iframe (Re.drop j html) = None) ->
  Py.truthy_str (EurostarTV.urljoin env url src) = true ->
  EurostarTV.http_get env (EurostarTV.urljoin env url src) = Ret html2 ->
  Resolver.steps_2_3 html2 = Some found ->
  EurostarTV._find_iframe_url env html url = Some (EurostarTV.urljoin env url src)
  /\ EurostarTV._get_streams env url
     = (streams <- EurostarTV.parse_variant_playlist env found ;; Ret (Some streams)).
Proof.
  intros Hget Hnone Hhere Hsrc Hfirst Htrue Hget2 Hfound.
  split.
  - unfold EurostarTV._find_iframe_url.
    rewrite (ReFacts.search_first EurostarTV._re_iframe html i g Hfirst Hhere).
    simpl Re.group. now rewrite Hsrc.
  - rewrite (ResolverFacts.get_streams_through_iframe env url html i g src)
      by assumption.
    rewrite Hget2. simpl bind. now rewrite Hfound.
Qed.

Ltac no_earlier_match :=
  let j := fresh "j" in
  let Hj := fresh "Hj" in
  intros j Hj;
  repeat (destruct j as [|j]; [vm_compute; reflexivity|]);
  exfalso; lia.

Lemma captured_src_is_followed_witness :
  EurostarTV._find_iframe_url Resolver.env_ok Resolver.outer_page Resolver.page_url
    = Some Resolver.iframe_url
  /\ EurostarTV._get_streams Resolver.env_ok Resolver.page_url
     = Ret (Some (Sample.streams_of (Some 3)
                    [{| stream_info := Some (Sample.video_info 1280 720);
                        uri := Resolver.manifest_url |}])).
Proof.
  apply (captured_src_is_followed Resolver.env_ok Resolver.page_url
           Resolver.outer_page "/embed/live" Resolver.inner_page
           Resolver.manifest_url 12 {[ "src" := "/embed/live" ]}).
  - reflexivity.
  - vm_compute. reflexivity.
  - vm_compute. reflexivity.
  - vm_compute. reflexivity.
  - no_earlier_match.
  - reflexivity.
  - reflexivity.
  - vm_compute. reflexivity.
Defined.

(** C8 (counterexample).  The outer page loads, and the fetch of the
    iframe URL raises.  [_get_streams] raises that exception; it does
    not return [None]. *)
Lemma C8_iframe_fetch_error_raised :
  EurostarTV.http_get Resolver.env_iframe_down Resolver.page_url
    = Ret Resolver.outer_page
  /\ EurostarTV._find_iframe_url Resolver.env_iframe_down
       Resolver.outer_page Resolver.page_url = Some Resolver.iframe_url
  /\ EurostarTV.http_get Resolver.env_iframe_down Resolver.iframe_url
    = Raise Resolver.unreachable
  /\ EurostarTV._get_streams Resolver.env_iframe_down Resolver.page_url
    = Raise Resolver.unreachable
  /\ EurostarTV._get_streams Resolver.env_iframe_down Resolver.page_url
    <> Ret None.
Proof.
  split; [reflexivity|].
  split; [vm_compute; reflexivity|].
  split; [reflexivity|].
  split; [vm_compute; reflexivity|].
  vm_compute. discriminate.
Qed.

(** C8 (amended).  When the outer page loads, steps 2 and 3 find
    nothing in it, and the fetch of the URL of its first iframe raises,
    [_get_streams] raises the same exception, as it does when the fetch
    of the outer page raises. *)
Theorem C8_iframe_fetch_error_propagates
    (env : EurostarTV.Env) (url html src : string)
    (i : nat) (g : Re.groups) (e : exn) :
  EurostarTV.http_get env url = Ret html ->
  Resolver.steps_2_3 html = None ->
  Re.match_here EurostarTV._re_iframe (Re.drop i html) = Some g ->
  g !! "src" = Some src ->
  (forall j, (j < i)%nat ->
     Re.match_here EurostarTV._re_iframe (Re.drop j html) = None) ->
  Py.truthy_str (EurostarTV.urljoin env url src) = true ->
  EurostarTV.http_get env (EurostarTV.urljoin env url src) = Raise e ->
  EurostarTV._get_streams env url = Raise e.
Proof.
  intros Hget Hnone Hhere Hsrc Hfirst Htrue Hget2.
  rewrite (ResolverFacts.get_streams_through_iframe env url html i g src)
    by assumption.
  rewrite Hget2. reflexivity.
Qed.

Lemma C8_witness :
  EurostarTV._get_streams Resolver.env_iframe_down Resolver.page_url
  = Raise Resolver.unreachable.
Proof.
  apply (C8_iframe_fetch_error_propagates Resolver.env_iframe_down
           Resolver.page_url Resolver.outer_page "/embed/live"
           12 {[ "src" := "/embed/live" ]} Resolver.unreachable).
  - reflexivity.
  - vm_compute. reflexivity.
  - vm_compute. reflexivity.
  - vm_compute. reflexivity.
  - no_earlier_match.
  - reflexivity.
  - reflexivity.
Defined.

(** C7 (the code at the failing input).  The page has no manifest URL
    and one iframe, whose [src] is the relative [/embed/live]; joined
    with the page URL that is the iframe URL, whose text loads and holds
    a manifest URL for steps 2 and 3.  The tag has the attribute
    [data-src] behind [src]: the pattern captures that value, the
    resolver fetches its URL and not the one of [src], and returns no
    streams. *)
Theorem C7_iframe_src_at_failing_input :
  Resolver.steps_2_3 IframeSrc.lazy_page = None
  /\ EurostarTV.urljoin IframeSrc.env_lazy Resolver.page_url "/embed/live"
     = Resolver.iframe_url
  /\ EurostarTV.http_get IframeSrc.env_lazy Resolver.iframe_url
     = Ret Resolver.inner_page
  /\ Resolver.steps_2_3 Resolver.inner_page = Some Resolver.manifest_url
  /\ EurostarTV._find_iframe_url IframeSrc.env_lazy IframeSrc.lazy_page
       Resolver.page_url
     = Some IframeSrc.lazy_url
  /\ EurostarTV._get_streams IframeSrc.env_lazy Resolver.page_url = Ret None.
Proof. repeat split; vm_compute; reflexivity. Qed.

(** Within one iframe tag the pattern takes the last quoted value that
    stands behind [src=], since the run of characters before it is as
    long as it can be. *)
Lemma iframe_last_src_in_tag :
  EurostarTV._find_iframe_url Resolver.env_ok
    "<iframe src='/embed/live' data-src='/lazy'></iframe>" Resolver.page_url
  = Some "https://example.com/lazy".
Proof. vm_compute. reflexivity. Qed.

(** The fetch of the outer page: its exception leaves [_get_streams]
    too. *)
Lemma outer_fetch_error_propagates env url e :
  EurostarTV.http_get env url = Raise e ->
  EurostarTV._get_streams env url = Raise e.
Proof.
  intros H. unfold EurostarTV._get_streams, EurostarTV._fetch.
  now rewrite H.
Qed.

(** * Properties of the batch run *)

Module BatchFacts.
Import Generate Batch.
Local Open Scope list_scope.

Lemma processed_app out1 out2 :
  processed (out1 ++ out2) = processed out1 ++ processed out2.
Proof. apply omap_app. Qed.

Lemma successes_app out1 out2 :
  successes (out1 ++ out2) = (successes out1 + successes out2)%nat.
Proof. unfold successes. now rewrite omap_app, length_app. Qed.

(** [get_streams] makes its call on the session that has the headers
    of the channel over the default ones, and on no other. *)
Lemma get_streams_session (h : option Headers) :
  set_option new_session "http-headers"
    (match h with
     | Some h' => if truthy_dict h'
                  then dict_update {[ "User-Agent" := "Mozilla/5.0" ]} h'
                  else {[ "User-Agent" := "Mozilla/5.0" ]}
     | None => {[ "User-Agent" := "Mozilla/5.0" ]}
     end)
  = session_for h.
Proof.
  unfold session_for, set_option, new_session, sent_headers. simpl.
  f_equal. rewrite insert_empty. f_equal.
  destruct h as [h'|]; [|reflexivity].
  unfold truthy_dict, dict_update.
  destruct (Nat.eqb (size h') 0) eqn:Hsize; simpl; [|reflexivity].
  apply Nat.eqb_eq in Hsize. apply map_size_empty_iff in Hsize.
  subst h'. now rewrite (left_id_L ∅ (∪)).
Qed.

Lemma make_streamlink_session_for (h : option Headers) :
  Utils.make_streamlink_session h = session_for h.
Proof. apply get_streams_session. Qed.

Ltac close_turn :=
  eexists _, _; split; [reflexivity|];
  split; simpl;
  [ rewrite get_streams_session; reflexivity
  | unfold processed; rewrite !omap_app; simpl; rewrite ?app_nil_r; reflexivity
  | unfold successes; rewrite !omap_app, !length_app; simpl;
    first [ left; split; [reflexivity|lia] | right; split; [reflexivity|lia] ] ].

Lemma process_channel_turn env mf bf n ch c w :
  exists c' w',
    process_channel env mf bf n ch c w = (Ret c', w') /\ turn ch c w c' w'.
Proof.
  unfold process_channel, mbind, try_except, print, get_streams, write_file, ret.
  simpl.
  destruct (session_streams env n _ (url ch)) as [streams|e]; [|close_turn].
  destruct (truthy_streams streams); simpl; [|close_turn].
  destruct (build_playlists streams) as [master best].
  destruct (falsy_text master); simpl; [close_turn|].
  destruct (open_write env n (os_path_join mf _)) as [[]|e]; [|close_turn].
  destruct master as [m|]; [|close_turn].
  destruct (open_write env n (os_path_join bf _)) as [[]|e]; [|close_turn].
  destruct best as [b|]; close_turn.
Qed.

(** The loop takes a turn for every channel, in order. *)
Lemma for_channels_all env mf bf chs : forall n c w,
  exists c' w',
    for_channels env mf bf n chs c w = (Ret c', w')
    /\ (success c' + fail c' = success c + fail c + length chs)%nat
    /\ requests w' = requests w ++ map request_of chs
    /\ processed (stdout w') = processed (stdout w) ++ map slug chs
    /\ (successes (stdout w') + success c = successes (stdout w) + success c')%nat.
Proof.
  induction chs as [|ch chs IH]; intros n c w.
  - exists c, w. simpl. rewrite !app_nil_r. repeat split; lia.
  - destruct (process_channel_turn env mf bf n ch c w) as (c1 & w1 & Hrun & Hturn).
    destruct (IH (S n) c1 w1) as (c' & w' & Hloop & Hsum & Hreq & Hproc & Hsucc).
    exists c', w'. simpl for_channels. unfold mbind at 1. rewrite Hrun.
    split; [exact Hloop|].
    destruct Hturn as [Hr Hp Hc].
    rewrite Hreq, Hr, Hproc, Hp, <- !app_assoc. simpl.
    repeat split; destruct Hc as [[-> Hs]|[-> Hs]]; simpl in *; lia.
Qed.

End BatchFacts.

(** C9.  When the configuration has loaded and its folders are made,
    the run takes a turn for every channel of the list, in order,
    whatever the channels do; it prints the summary with the number [s]
    of successes, the number [f] of failures and the total, where
    [s + f] is the length of the list and [s] the number of [Success]
    lines printed; and its exit status is [0] exactly when [s] is not
    zero.  When the configuration does not load, the exit status is not
    [0]. *)
Theorem C9_every_channel_counted
    (env : Generate.Env) (cfg : config) (w : Generate.World) :
  Batch.folders_ok env cfg ->
  (exists (s f : nat) (code : option Z) (w' : Generate.World),
      Generate.main env (Ret cfg) w = (Ret code, w')
      /\ Batch.processed (Generate.stdout w')
         = (Batch.processed (Generate.stdout w) ++ map slug (channels cfg))%list
      /\ (exists out, Generate.stdout w'
                      = (out ++ Batch.summary s f (length (channels cfg)))%list)
      /\ (s + f = length (channels cfg))%nat
      /\ (Batch.successes (Generate.stdout w')
          = Batch.successes (Generate.stdout w) + s)%nat
      /\ (Generate.exit_status (Ret code) = 0 <-> (0 < s)%nat))
  /\ (forall e, Generate.exit_status (fst (Generate.main env (Raise e) w)) <> 0).
Proof.
  intros [Hbest Hmaster]. split; [|intros e; simpl; discriminate].
  unfold Batch.best_folder_of in Hbest. unfold Batch.master_folder_of in Hmaster.
  destruct (BatchFacts.for_channels_all env
              (Generate.os_path_join (folder (output cfg)) (masterFolder (output cfg)))
              (Generate.os_path_join (folder (output cfg)) (bestFolder (output cfg)))
              (channels cfg) 0%nat
              {| Generate.success := 0; Generate.fail := 0 |}
              {| Generate.files := Generate.files w;
                 Generate.stdout := (Generate.stdout w ++ [Generate.PrintStart])%list;
                 Generate.requests := Generate.requests w |})
    as (c & w1 & Hloop & Hsum & _ & Hproc & Hsucc).
  simpl in Hsum, Hproc, Hsucc.
  exists (Generate.success c), (Generate.fail c).
  unfold Generate.main, Generate.mbind, Generate.print, Generate.lift. simpl.
  rewrite Hbest, Hmaster, Hloop. simpl.
  assert (Hp : Batch.processed (Generate.stdout w1)
               = (Batch.processed (Generate.stdout w) ++ map slug (channels cfg))%list).
  { rewrite Hproc. unfold Batch.processed. rewrite omap_app. simpl.
    now rewrite app_nil_r. }
  assert (Hs : (Batch.successes (Generate.stdout w1)
                = Batch.successes (Generate.stdout w) + Generate.success c)%nat).
  { unfold Batch.successes in *. rewrite omap_app, length_app in Hsucc.
    simpl in Hsucc. lia. }
  destruct (Nat.eqb (Generate.success c) 0) eqn:Hzero;
    [apply Nat.eqb_eq in Hzero|apply Nat.eqb_neq in Hzero];
    eexists _, _; (split; [reflexivity|]); simpl;
    (split; [rewrite <- Hp; unfold Batch.processed; rewrite !omap_app; simpl;
             rewrite !app_nil_r; reflexivity|]);
    (split; [exists (Generate.stdout w1); unfold Batch.summary;
             rewrite <- !app_assoc; reflexivity|]);
    (split; [lia|]);
    (split; [rewrite <- Hs; unfold Batch.successes; rewrite !omap_app, !length_app;
             simpl; lia|]);
    split; intros H; try lia; try discriminate H; reflexivity.
Qed.

Lemma C9_witness :
  (exists (s f : nat) (code : option Z) (w' : Generate.World),
      Generate.main Batch.env_first_only (Ret Batch.three_channels)
        Generate.empty_world = (Ret code, w')
      /\ Batch.processed (Generate.stdout w')
         = (Batch.processed (Generate.stdout Generate.empty_world)
            ++ map slug (channels Batch.three_channels))%list
      /\ (exists out, Generate.stdout w'
                      = (out ++ Batch.summary s f
                                  (length (channels Batch.three_channels)))%list)
      /\ (s + f = length (channels Batch.three_channels))%nat
      /\ (Batch.successes (Generate.stdout w')
          = Batch.successes (Generate.stdout Generate.empty_world) + s)%nat
      /\ (Generate.exit_status (Ret code) = 0 <-> (0 < s)%nat))
  /\ (forall e, Generate.exit_status
                  (fst (Generate.main Batch.env_first_only (Raise e)
                          Generate.empty_world)) <> 0).
Proof.
  apply (C9_every_channel_counted Batch.env_first_only Batch.three_channels
           Generate.empty_world).
  split; reflexivity.
Defined.

(** The example of the specification: of three channels one succeeds
    and two fail; the summary reads 1, 2 and 3 and the run returns
    without [sys.exit], so the exit status is [0]. *)
Lemma one_of_three_succeeds :
  fst (Generate.main Batch.env_first_only (Ret Batch.three_channels)
         Generate.empty_world) = Ret None
  /\ Generate.stdout
       (snd (Generate.main Batch.env_first_only (Ret Batch.three_channels)
               Generate.empty_world))
     = ([Generate.PrintStart;
         Generate.PrintProcessing "one"; Generate.PrintUrl "https://one.example/live";
         Generate.PrintSuccess;
         Generate.PrintProcessing "two"; Generate.PrintUrl "https://two.example/live";
         Generate.PrintNoStreams;
         Generate.PrintProcessing "three"; Generate.PrintUrl "https://three.example/live";
         Generate.PrintError (PluginError "No plugin can handle URL")]
        ++ Batch.summary 1 2 3)%list.
Proof. split; vm_compute; reflexivity. Qed.

(** With no success at all the run ends in [sys.exit(1)]. *)
Lemma none_of_three_succeeds :
  fst (Generate.main Batch.env_none (Ret Batch.three_channels)
         Generate.empty_world) = Ret (Some 1)
  /\ Generate.stdout
       (snd (Generate.main Batch.env_none (Ret Batch.three_channels)
               Generate.empty_world))
     = ([Generate.PrintStart;
         Generate.PrintProcessing "one"; Generate.PrintUrl "https://one.example/live";
         Generate.PrintNoStreams;
         Generate.PrintProcessing "two"; Generate.PrintUrl "https://two.example/live";
         Generate.PrintNoStreams;
         Generate.PrintProcessing "three"; Generate.PrintUrl "https://three.example/live";
         Generate.PrintNoStreams]
        ++ Batch.summary 0 3 3)%list.
Proof. split; vm_compute; reflexivity. Qed.

(** C10.  Every call of [session.streams] is made on a session of its
    own that has one option, the headers: the default [User-Agent] with
    the headers of the channel set over it key by key.  In two runs, on
    any two channel lists and with any two behaviours of the outside,
    the call made for the channel at position [i] is the same when the
    two channels at that position have the same URL and headers,
    whatever the other channels bring; and a channel without headers is
    fetched with the default [User-Agent] alone. *)
Theorem C10_headers_stay_with_their_channel
    (env1 env2 : Generate.Env) (cfg1 cfg2 : config)
    (i : nat) (ch1 ch2 : channel) :
  Batch.folders_ok env1 cfg1 ->
  Batch.folders_ok env2 cfg2 ->
  channels cfg1 !! i = Some ch1 ->
  channels cfg2 !! i = Some ch2 ->
  url ch1 = url ch2 ->
  headers ch1 = headers ch2 ->
  Generate.requests (snd (Generate.main env1 (Ret cfg1) Generate.empty_world)) !! i
    = Some ({| options := {[ "http-headers" := Batch.sent_headers (headers ch1) ]} |},
            url ch1)
  /\ Generate.requests (snd (Generate.main env1 (Ret cfg1) Generate.empty_world)) !! i
     = Generate.requests (snd (Generate.main env2 (Ret cfg2) Generate.empty_world)) !! i
  /\ (forall k,
        Batch.sent_headers (headers ch1) !! k
        = match Batch.channel_header (headers ch1) k with
          | Some v => Some v
          | None => ({[ "User-Agent" := "Mozilla/5.0" ]} : Headers) !! k
          end)
  /\ (headers ch1 = None \/ headers ch1 = Some ∅ ->
      Batch.sent_headers (headers ch1) = {[ "User-Agent" := "Mozilla/5.0" ]}).
Proof.
  intros Hok1 Hok2 Hch1 Hch2 Hurl Hheaders.
  assert (Hrun : forall env cfg, Batch.folders_ok env cfg ->
            Generate.requests (snd (Generate.main env (Ret cfg) Generate.empty_world))
            = map Batch.request_of (channels cfg)).
  { intros env cfg [Hbest Hmaster].
    unfold Batch.best_folder_of in Hbest. unfold Batch.master_folder_of in Hmaster.
    destruct (BatchFacts.for_channels_all env
                (Generate.os_path_join (folder (output cfg)) (masterFolder (output cfg)))
                (Generate.os_path_join (folder (output cfg)) (bestFolder (output cfg)))
                (channels cfg) 0%nat
                {| Generate.success := 0; Generate.fail := 0 |}
                {| Generate.files := ∅;
                   Generate.stdout := [Generate.PrintStart];
                   Generate.requests := [] |})
      as (c & w1 & Hloop & _ & Hreq & _).
    unfold Generate.main, Generate.mbind, Generate.print, Generate.lift. simpl.
    rewrite Hbest, Hmaster, Hloop. simpl.
    destruct (Nat.eqb (Generate.success c) 0); simpl; exact Hreq. }
  rewrite (Hrun env1 cfg1 Hok1), (Hrun env2 cfg2 Hok2).
  rewrite !list_lookup_fmap, Hch1, Hch2. simpl.
  unfold Batch.request_of, Batch.session_for. rewrite <- Hurl, <- Hheaders.
  split; [reflexivity|]. split; [reflexivity|]. split.
  - intros k. unfold Batch.sent_headers, Batch.channel_header.
    destruct (headers ch1) as [h|]; [|reflexivity].
    rewrite lookup_union. destruct (h !! k) as [v|]; simpl.
    + now destruct (({[ "User-Agent" := "Mozilla/5.0" ]} : Headers) !! k).
    + now destruct (({[ "User-Agent" := "Mozilla/5.0" ]} : Headers) !! k).
  - intros [-> | ->]; simpl; [reflexivity|]. now rewrite (left_id_L ∅ (∪)).
Qed.

Lemma C10_witness :
  Generate.requests
    (snd (Generate.main Batch.env_first_only (Ret Batch.three_channels)
            Generate.empty_world)) !! 2%nat
    = Some ({| options := {[ "http-headers" := Batch.sent_headers None ]} |},
            "https://three.example/live")
  /\ Generate.requests
       (snd (Generate.main Batch.env_first_only (Ret Batch.three_channels)
               Generate.empty_world)) !! 2%nat
     = Generate.requests
         (snd (Generate.main Batch.env_none (Ret Batch.three_channels')
                 Generate.empty_world)) !! 2%nat
  /\ (forall k,
        Batch.sent_headers None !! k
        = match Batch.channel_header None k with
          | Some v => Some v
          | None => ({[ "User-Agent" := "Mozilla/5.0" ]} : Headers) !! k
          end)
  /\ (@None Headers = None \/ @None Headers = Some ∅ ->
      Batch.sent_headers None = {[ "User-Agent" := "Mozilla/5.0" ]}).
Proof.
  apply (C10_headers_stay_with_their_channel Batch.env_first_only Batch.env_none
           Batch.three_channels Batch.three_channels' 2
           {| slug := "three"; url := "https://three.example/live"; headers := None |}
           {| slug := "three"; url := "https://three.example/live"; headers := None |}).
  - split; reflexivity.
  - split; reflexivity.
  - reflexivity.
  - reflexivity.
  - reflexivity.
  - reflexivity.
Defined.

(** The sessions of [three_channels]: the second channel sends its own
    [User-Agent] and its [Referer], the other two the default alone. *)
Lemma three_channels_requests :
  Generate.requests
    (snd (Generate.main Batch.env_first_only (Ret Batch.three_channels)
            Generate.empty_world))
  = [({| options := {[ "http-headers" := {[ "User-Agent" := "Mozilla/5.0" ]} ]} |},
      "https://one.example/live");
     ({| options := {[ "http-headers" := {[ "Referer" := "https://two.example/";
                                            "User-Agent" := "curl/8" ]} ]} |},
      "https://two.example/live");
     ({| options := {[ "http-headers" := {[ "User-Agent" := "Mozilla/5.0" ]} ]} |},
      "https://three.example/live")].
Proof. vm_compute. reflexivity. Qed.

(** * The order and the shape of the bodies *)

Module OrderFacts.
Import Body Order BodyFacts.

Section Sorting.
Context {A : Type} (key : A -> Z).

Let ge_key (a b : A) : Prop := key b <= key a.

Lemma insert_desc_sorted x l :
  StronglySorted ge_key l -> StronglySorted ge_key (Utils.insert_desc key x l).
Proof.
  induction 1 as [|y l Hl IH Hy]; simpl.
  - repeat constructor.
  - destruct (Z.ltb (key x) (key y)) eqn:Hlt.
    + apply Z.ltb_lt in Hlt. constructor; [exact IH|].
      eapply Permutation_Forall.
      * symmetry. apply insert_desc_perm.
      * constructor; [unfold ge_key; lia|exact Hy].
    + apply Z.ltb_ge in Hlt. constructor.
      * now constructor.
      * constructor; [exact Hlt|].
        eapply Forall_impl; [exact Hy|].
        intros z Hz. unfold ge_key in *. lia.
Qed.

(** The sorted list never rises. *)
Lemma sorted_reverse_sorted l : StronglySorted ge_key (Utils.sorted_reverse key l).
Proof.
  induction l as [|x l IH]; simpl; [constructor|].
  now apply insert_desc_sorted.
Qed.

Lemma insert_desc_stable h x l :
  List.filter (fun y => Z.eqb (key y) h) (Utils.insert_desc key x l)
  = List.filter (fun y => Z.eqb (key y) h) (x :: l).
Proof.
  induction l as [|y l IH]; [reflexivity|].
  simpl Utils.insert_desc.
  destruct (Z.ltb (key x) (key y)) eqn:Hlt; [|reflexivity].
  apply Z.ltb_lt in Hlt.
  cbn [List.filter] in *. rewrite IH.
  destruct (Z.eqb (key x) h) eqn:Hx, (Z.eqb (key y) h) eqn:Hy; try reflexivity.
  apply Z.eqb_eq in Hx, Hy. lia.
Qed.

(** Elements with the same key keep the order they had. *)
Lemma sorted_reverse_stable h l :
  List.filter (fun y => Z.eqb (key y) h) (Utils.sorted_reverse key l)
  = List.filter (fun y => Z.eqb (key y) h) l.
Proof.
  induction l as [|x l IH]; [reflexivity|].
  simpl Utils.sorted_reverse. rewrite insert_desc_stable.
  cbn [List.filter]. now rewrite IH.
Qed.

Lemma filter_sorted (keep : A -> bool) l :
  StronglySorted ge_key l -> StronglySorted ge_key (List.filter keep l).
Proof.
  induction 1 as [|y l Hl IH Hy]; simpl; [constructor|].
  destruct (keep y); [|exact IH].
  constructor; [exact IH|].
  apply List.Forall_forall. intros z Hz.
  apply List.filter_In in Hz as [Hz _].
  rewrite List.Forall_forall in Hy. now apply Hy.
Qed.

Lemma filter_filter_comm (f g : A -> bool) l :
  List.filter f (List.filter g l) = List.filter g (List.filter f l).
Proof.
  induction l as [|x l IH]; [reflexivity|].
  simpl. destruct (f x) eqn:Hf, (g x) eqn:Hg; simpl; rewrite ?Hf, ?Hg, IH; reflexivity.
Qed.

End Sorting.

Lemma blocks_app block l1 l2 :
  blocks block (l1 ++ l2)%list = blocks block l1 +:+ blocks block l2.
Proof.
  induction l1 as [|pl l1 IH]; [reflexivity|].
  cbn [app blocks]. now rewrite IH, append_assoc.
Qed.

End OrderFacts.

(** X1.  Where the variant sorted first survives, the master body of
    [build_master_and_best] is the header and the blocks of the
    surviving variants, each once, in an order in which the height never
    rises and variants of the same height keep their source order; the
    best body is the header and the block of the first of them. *)
Theorem build_master_and_best_sorted_stable
    (streams : Streams) (mv : M3U8) (first : Playlist) (rest : list Playlist) :
  Order.multivariant_of streams = Some mv ->
  Utils.sorted_reverse Utils.height_of (playlists mv) = first :: rest ->
  survives first = true ->
  exists order,
    Utils.build_master_and_best streams
    = (Some (Utils.with_header (version mv) (Body.blocks Body.utils_block order)),
       Some (Utils.with_header (version mv) (Body.utils_block first)))
    /\ head order = Some first
    /\ Permutation order (Body.survivors (playlists mv))
    /\ StronglySorted Order.desc order
    /\ (forall h, List.filter (Order.has_height h) order
                  = List.filter (Order.has_height h) (Body.survivors (playlists mv))).
Proof.
  intros Hmv Hsorted Hfirst.
  unfold Order.multivariant_of in Hmv.
  destruct (streams !! "best") as [best_stream|] eqn:Hbest; [|discriminate Hmv].
  destruct (BodyFacts.build_master_and_best_top_survives
              streams best_stream mv first rest Hbest Hmv Hsorted Hfirst)
    as (Hrun & _ & Hperm).
  exists (Body.survivors (first :: rest)).
  split; [exact Hrun|].
  split; [unfold Body.survivors; simpl; now rewrite Hfirst|].
  split; [exact Hperm|].
  rewrite <- Hsorted. unfold Body.survivors. split.
  - apply (OrderFacts.filter_sorted Utils.height_of).
    apply OrderFacts.sorted_reverse_sorted.
  - intros h. unfold Order.has_height.
    rewrite OrderFacts.filter_filter_comm.
    rewrite (OrderFacts.sorted_reverse_stable Utils.height_of).
    apply OrderFacts.filter_filter_comm.
Qed.

Lemma build_master_and_best_sorted_stable_witness :
  exists order,
    Utils.build_master_and_best (Sample.streams_of (Some 3) Order.tie)
    = (Some (Utils.with_header (Some 3) (Body.blocks Body.utils_block order)),
       Some (Utils.with_header (Some 3)
               (Body.utils_block (Sample.pl (Sample.video_info 1920 1080) "1080.m3u8"))))
    /\ head order = Some (Sample.pl (Sample.video_info 1920 1080) "1080.m3u8")
    /\ Permutation order (Body.survivors Order.tie)
    /\ StronglySorted Order.desc order
    /\ (forall h, List.filter (Order.has_height h) order
                  = List.filter (Order.has_height h) (Body.survivors Order.tie)).
Proof.
  apply (build_master_and_best_sorted_stable
           (Sample.streams_of (Some 3) Order.tie)
           {| playlists := Order.tie; version := Some 3 |}
           (Sample.pl (Sample.video_info 1920 1080) "1080.m3u8")
           [Sample.pl (Sample.video_info 1280 720) "720a.m3u8";
            Sample.pl (Sample.video_info 1280 720) "720b.m3u8";
            Sample.pl (Sample.audio_info 0 0) "audio.m3u8"]).
  - reflexivity.
  - reflexivity.
  - reflexivity.
Defined.

(** X2.  [build_master_and_best] returns both bodies or none; it returns
    them exactly when [streams] has a ["best"] stream with a
    multivariant playlist whose variant sorted first survives.  A
    surviving variant further down does not make up for a first one
    that is dropped. *)
Theorem build_master_and_best_produces_iff (streams : Streams) :
  (Utils.build_master_and_best streams = (None, None)
   \/ exists m b, Utils.build_master_and_best streams = (Some m, Some b))
  /\ ((exists m b, Utils.build_master_and_best streams = (Some m, Some b))
      <-> exists mv first rest,
            Order.multivariant_of streams = Some mv
            /\ Utils.sorted_reverse Utils.height_of (playlists mv) = first :: rest
            /\ survives first = true).
Proof.
  assert (Hyes : forall mv first rest,
            Order.multivariant_of streams = Some mv ->
            Utils.sorted_reverse Utils.height_of (playlists mv) = first :: rest ->
            survives first = true ->
            exists m b, Utils.build_master_and_best streams = (Some m, Some b)).
  { intros mv first rest Hmv Hs Hf. unfold Order.multivariant_of in Hmv.
    destruct (streams !! "best") as [best_stream|] eqn:Hbest; [|discriminate Hmv].
    destruct (BodyFacts.build_master_and_best_top_survives
                streams best_stream mv first rest Hbest Hmv Hs Hf) as (Hrun & _).
    rewrite Hrun. eauto. }
  assert (Hno : (forall mv first rest,
                   Order.multivariant_of streams = Some mv ->
                   Utils.sorted_reverse Utils.height_of (playlists mv) = first :: rest ->
                   survives first = false) ->
                Utils.build_master_and_best streams = (None, None)).
  { intros H. unfold Order.multivariant_of in H.
    unfold Utils.build_master_and_best.
    destruct (streams !! "best") as [best_stream|]; [|reflexivity].
    destruct (multivariant best_stream) as [mv|]; [|reflexivity].
    destruct (negb (Py.truthy_list (playlists mv))); [reflexivity|].
    unfold Utils.enumerate. rewrite BodyFacts.utils_loop_run.
    destruct (Utils.sorted_reverse Utils.height_of (playlists mv)) as [|first rest] eqn:Hs.
    - reflexivity.
    - rewrite (H mv first rest eq_refl Hs). simpl.
      now rewrite orb_true_r. }
  destruct (Order.multivariant_of streams) as [mv|] eqn:Hmv.
  - destruct (Utils.sorted_reverse Utils.height_of (playlists mv))
      as [|first rest] eqn:Hs.
    + assert (Hnone : Utils.build_master_and_best streams = (None, None)).
      { apply Hno. intros mv' f r Hmv'. injection Hmv' as <-. now rewrite Hs. }
      split; [now left|]. split.
      * intros (m & b & H). rewrite Hnone in H. discriminate H.
      * intros (mv' & f & r & Hmv' & Hs' & _). injection Hmv' as <-.
        rewrite Hs in Hs'. discriminate Hs'.
    + destruct (survives first) eqn:Hf.
      * split; [right; now apply (Hyes mv first rest)|].
        split; [intros _; now exists mv, first, rest|].
        intros _. now apply (Hyes mv first rest).
      * assert (Hnone : Utils.build_master_and_best streams = (None, None)).
        { apply Hno. intros mv' f r Hmv' Hs'. injection Hmv' as <-.
          rewrite Hs in Hs'. now injection Hs' as <- <-. }
        split; [now left|]. split.
        -- intros (m & b & H). rewrite Hnone in H. discriminate H.
        -- intros (mv' & f & r & Hmv' & Hs' & Hf'). injection Hmv' as <-.
           rewrite Hs in Hs'. injection Hs' as <- <-. congruence.
  - assert (Hnone : Utils.build_master_and_best streams = (None, None)).
    { apply Hno. intros mv' f r Hmv'. discriminate Hmv'. }
    split; [now left|]. split.
    + intros (m & b & H). rewrite Hnone in H. discriminate H.
    + intros (mv' & f & r & Hmv' & _). discriminate Hmv'.
Qed.

Module ShapeFacts.
Import Body Order BodyFacts OrderFacts.

Lemma survivors_survive l pl : In pl (survivors l) -> survives pl = true.
Proof. unfold survivors. intros H. apply List.filter_In in H. tauto. Qed.

Lemma generate_block_truthy pl :
  survives pl = true -> Py.truthy_str (generate_block pl) = true.
Proof.
  unfold survives, generate_block. destruct (stream_info pl); [|discriminate].
  intros _. apply info_to_text_truthy.
Qed.

Lemma blocks_truthy order :
  order <> [] -> Forall (fun pl => survives pl = true) order ->
  Py.truthy_str (blocks generate_block order) = true.
Proof.
  destruct order as [|pl order]; [congruence|].
  intros _ H. inversion H as [|? ? Hpl _]; subst.
  cbn [blocks]. apply truthy_append. now apply generate_block_truthy.
Qed.

(** The loop of [build_playlists] puts the block of every survivor
    either before or behind the master text it started with, and its
    best text is the one it started with or the block of a survivor. *)
Lemma generate_loop_shape l : forall st,
  exists front back,
    Permutation (front ++ back) (survivors l)
    /\ Generate.master_text (fold_left Generate.loop_body l st)
       = blocks generate_block front +:+ Generate.master_text st
         +:+ blocks generate_block back
    /\ (Generate.best_text (fold_left Generate.loop_body l st) = Generate.best_text st
        \/ exists pl, In pl (survivors l)
             /\ Generate.best_text (fold_left Generate.loop_body l st)
                = generate_block pl).
Proof.
  induction l as [|pl l IH]; intros st.
  - exists [], []. simpl. rewrite append_nil_r. auto.
  - cbn [fold_left]. rewrite generate_loop_body_step.
    unfold survivors. cbn [List.filter]. fold (survivors l).
    destruct (survives pl); [|apply IH].
    destruct (Z.ltb (Generate.previous_res_height st) (Utils.height_of pl)).
    + match goal with
      | |- context [fold_left _ l ?st'] =>
          destruct (IH st') as (front & back & Hperm & Hm & Hb)
      end.
      exists (front ++ [pl])%list, back. split; [|split].
      * rewrite <- app_assoc. simpl.
        rewrite <- Hperm. symmetry. apply Permutation_middle.
      * rewrite Hm. cbn [Generate.master_text].
        rewrite blocks_app. cbn [blocks].
        now rewrite !append_assoc, append_nil_l.
      * right. destruct Hb as [Hb|(q & Hq & Hb)].
        -- exists pl. split; [now left|]. rewrite Hb. reflexivity.
        -- exists q. split; [now right|exact Hb].
    + match goal with
      | |- context [fold_left _ l ?st'] =>
          destruct (IH st') as (front & back & Hperm & Hm & Hb)
      end.
      exists front, (pl :: back). split; [|split].
      * rewrite <- Hperm. symmetry. apply Permutation_middle.
      * rewrite Hm. cbn [Generate.master_text blocks].
        now rewrite !append_assoc.
      * destruct Hb as [Hb|(q & Hq & Hb)].
        -- left. rewrite Hb. reflexivity.
        -- right. exists q. split; [now right|exact Hb].
Qed.

(** What [build_playlists] returns for a multivariant playlist. *)
Lemma build_playlists_of streams mv :
  multivariant_of streams = Some mv ->
  Generate.build_playlists streams
  = if negb (Py.truthy_list (playlists mv)) then (None, None)
    else
      let st := fold_left Generate.loop_body (playlists mv) Generate.initial in
      if negb (Py.truthy_str (Generate.master_text st)) then (None, None)
      else (Some (Utils.with_header (version mv) (Generate.master_text st)),
            Some (Utils.with_header (version mv) (Generate.best_text st))).
Proof.
  unfold multivariant_of, Generate.build_playlists.
  destruct (streams !! "best") as [best_stream|]; [|discriminate].
  now intros ->.
Qed.

Lemma build_playlists_without streams :
  multivariant_of streams = None ->
  Generate.build_playlists streams = (None, None).
Proof.
  unfold multivariant_of, Generate.build_playlists.
  destruct (streams !! "best") as [best_stream|]; [|reflexivity].
  now intros ->.
Qed.

(** The loop from its initial state: the master text is the blocks of
    the survivors in some order, so it is empty exactly when there is no
    survivor. *)
Lemma generate_loop_initial l :
  exists order,
    Permutation order (survivors l)
    /\ Generate.master_text (fold_left Generate.loop_body l Generate.initial)
       = blocks generate_block order
    /\ (Generate.best_text (fold_left Generate.loop_body l Generate.initial)
        = EmptyString
        \/ exists pl, In pl (survivors l)
             /\ Generate.best_text (fold_left Generate.loop_body l Generate.initial)
                = generate_block pl).
Proof.
  destruct (generate_loop_shape l Generate.initial) as (front & back & Hperm & Hm & Hb).
  exists (front ++ back)%list. split; [exact Hperm|]. split; [|exact Hb].
  rewrite Hm, blocks_app. cbn [Generate.initial Generate.master_text].
  now rewrite append_nil_l.
Qed.

End ShapeFacts.

(** X3.  Where at least one variant survives, the master body of
    [build_playlists] is the header and the blocks of the surviving
    variants, each once, in some order; the best body is the header
    alone or the header and the block of one surviving variant. *)
Theorem build_playlists_lists_every_survivor (streams : Streams) (mv : M3U8) :
  Order.multivariant_of streams = Some mv ->
  Body.survivors (playlists mv) <> [] ->
  exists order,
    Permutation order (Body.survivors (playlists mv))
    /\ fst (Generate.build_playlists streams)
       = Some (Utils.with_header (version mv) (Body.blocks Body.generate_block order))
    /\ (snd (Generate.build_playlists streams)
        = Some (Utils.with_header (version mv) EmptyString)
        \/ exists pl, In pl (Body.survivors (playlists mv))
             /\ snd (Generate.build_playlists streams)
                = Some (Utils.with_header (version mv) (Body.generate_block pl))).
Proof.
  intros Hmv Hsome.
  rewrite (ShapeFacts.build_playlists_of streams mv Hmv).
  destruct (playlists mv) as [|p ps] eqn:Hpl; [now contradiction Hsome|].
  cbn [Py.truthy_list negb]. cbv zeta.
  destruct (ShapeFacts.generate_loop_initial (p :: ps)) as (order & Hperm & Hm & Hb).
  exists order. split; [exact Hperm|].
  assert (Ht : Py.truthy_str (Body.blocks Body.generate_block order) = true).
  { apply ShapeFacts.blocks_truthy.
    - intros ->. apply Permutation_nil in Hperm. now apply Hsome.
    - apply List.Forall_forall. intros pl Hin.
      apply (ShapeFacts.survivors_survive (p :: ps)).
      eapply Permutation_in; eassumption. }
  rewrite Hm, Ht. cbn [negb fst snd]. split; [reflexivity|].
  destruct Hb as [Hb|(pl & Hin & Hb)]; rewrite Hb; [now left|right; eauto].
Qed.

Lemma build_playlists_lists_every_survivor_witness :
  exists order,
    Permutation order (Body.survivors zigzag)
    /\ fst (Generate.build_playlists (Sample.streams_of None zigzag))
       = Some (Utils.with_header None (Body.blocks Body.generate_block order))
    /\ (snd (Generate.build_playlists (Sample.streams_of None zigzag))
        = Some (Utils.with_header None EmptyString)
        \/ exists pl, In pl (Body.survivors zigzag)
             /\ snd (Generate.build_playlists (Sample.streams_of None zigzag))
                = Some (Utils.with_header None (Body.generate_block pl))).
Proof.
  apply (build_playlists_lists_every_survivor (Sample.streams_of None zigzag)
           {| playlists := zigzag; version := None |}).
  - reflexivity.
  - vm_compute. discriminate.
Defined.

(** X4.  [build_playlists] returns both bodies or none; it returns them
    exactly when [streams] has a ["best"] stream with a multivariant
    playlist of which at least one variant survives. *)
Theorem build_playlists_produces_iff (streams : Streams) :
  (Generate.build_playlists streams = (None, None)
   \/ exists m b, Generate.build_playlists streams = (Some m, Some b))
  /\ ((exists m b, Generate.build_playlists streams = (Some m, Some b))
      <-> exists mv, Order.multivariant_of streams = Some mv
                     /\ Body.survivors (playlists mv) <> []).
Proof.
  destruct (Order.multivariant_of streams) as [mv|] eqn:Hmv.
  - rewrite (ShapeFacts.build_playlists_of streams mv Hmv).
    destruct (playlists mv) as [|p ps] eqn:Hpl.
    { cbn [Py.truthy_list negb]. split; [now left|]. split.
      - intros (m & b & H). discriminate H.
      - intros (mv' & Hmv' & Hs). injection Hmv' as <-. rewrite Hpl in Hs.
        now contradiction Hs. }
    cbn [Py.truthy_list negb]. cbv zeta.
    destruct (ShapeFacts.generate_loop_initial (p :: ps)) as (order & Hperm & Hm & _).
    rewrite Hm.
    destruct (Body.survivors (p :: ps)) as [|q qs] eqn:Hs.
    + apply Permutation_sym, Permutation_nil in Hperm. subst order.
      cbn [Body.blocks Py.truthy_str negb]. split; [now left|]. split.
      * intros (m & b & H). discriminate H.
      * intros (mv' & Hmv' & Hne). injection Hmv' as <-. rewrite Hpl, Hs in Hne.
        now contradiction Hne.
    + assert (Ht : Py.truthy_str (Body.blocks Body.generate_block order) = true).
      { apply ShapeFacts.blocks_truthy.
        - intros ->. apply Permutation_nil in Hperm. discriminate Hperm.
        - apply List.Forall_forall. intros pl Hin.
          apply (ShapeFacts.survivors_survive (p :: ps)). rewrite Hs.
          eapply Permutation_in; eassumption. }
      rewrite Ht. cbn [negb]. split; [right; eauto|]. split.
      * intros _. exists mv. split; [reflexivity|]. rewrite Hpl, Hs. discriminate.
      * intros _. eauto.
  - rewrite (ShapeFacts.build_playlists_without streams Hmv).
    split; [now left|]. split.
    + intros (m & b & H). discriminate H.
    + intros (mv' & Hmv' & _). discriminate Hmv'.
Qed.

Module AgreeFacts.
Import Body Order BodyFacts OrderFacts.

Lemma never_rises_cons a b r :
  never_rises (a :: b :: r) = Z.leb b a && never_rises (b :: r).
Proof. reflexivity. Qed.

Lemma never_rises_sorted {A} (key : A -> Z) l :
  never_rises (map key l) = true ->
  StronglySorted (fun a b => key b <= key a) l.
Proof.
  induction l as [|x l IH]; [constructor|].
  intros H. assert (Hl : never_rises (map key l) = true).
  { destruct l as [|y l]; [reflexivity|].
    cbn [map] in H. rewrite never_rises_cons in H. apply andb_prop in H. tauto. }
  specialize (IH Hl). constructor; [exact IH|].
  destruct l as [|y l]; [constructor|].
  cbn [map] in H. rewrite never_rises_cons in H. apply andb_prop in H as [Hxy _].
  apply Z.leb_le in Hxy.
  inversion IH as [|? ? _ Hy]; subst.
  constructor; [exact Hxy|].
  eapply Forall_impl; [exact Hy|]. intros z Hz. simpl in Hz. lia.
Qed.

Lemma sorted_never_rises {A} (key : A -> Z) l :
  StronglySorted (fun a b => key b <= key a) l ->
  never_rises (map key l) = true.
Proof.
  induction 1 as [|x l Hl IH Hx]; [reflexivity|].
  destruct l as [|y l]; [reflexivity|].
  cbn [map] in *. rewrite never_rises_cons, IH.
  inversion Hx as [|? ? Hxy _]; subst.
  apply Z.leb_le in Hxy. now rewrite Hxy.
Qed.

(** A list that never rises is its own sorted list. *)
Lemma sorted_reverse_id {A} (key : A -> Z) l :
  never_rises (map key l) = true -> Utils.sorted_reverse key l = l.
Proof.
  induction l as [|x l IH]; [reflexivity|].
  intros H. assert (Hl : never_rises (map key l) = true).
  { destruct l as [|y l]; [reflexivity|].
    cbn [map] in H. rewrite never_rises_cons in H. apply andb_prop in H. tauto. }
  cbn [Utils.sorted_reverse]. rewrite (IH Hl).
  destruct l as [|y l]; [reflexivity|].
  cbn [map] in H. rewrite never_rises_cons in H. apply andb_prop in H as [Hxy _].
  apply Z.leb_le in Hxy. cbn [Utils.insert_desc].
  replace (Z.ltb (key x) (key y)) with false
    by (symmetry; apply Z.ltb_ge; exact Hxy).
  reflexivity.
Qed.

Lemma blocks_agree l :
  Forall covered l -> blocks generate_block l = blocks utils_block l.
Proof.
  induction 1 as [|pl l Hpl _ IH]; [reflexivity|].
  cbn [blocks]. rewrite IH. f_equal.
  unfold generate_block, utils_block. unfold covered in Hpl.
  destruct (stream_info pl); [|reflexivity].
  now apply info_to_text_agrees.
Qed.

End AgreeFacts.

(** X5.  On a variant list whose heights never rise in source order,
    whose first variant survives with a height above 0, and whose
    surviving variants have their heights covered, [build_playlists] and
    [build_master_and_best] return the same two bodies: the header with
    the blocks of the surviving variants in source order, and the header
    with the block of the first variant. *)
Theorem build_playlists_agrees_on_sorted_input
    (streams : Streams) (mv : M3U8) (first : Playlist) (rest : list Playlist) :
  Order.multivariant_of streams = Some mv ->
  playlists mv = first :: rest ->
  survives first = true ->
  0 < Utils.height_of first ->
  never_rises (map Utils.height_of (playlists mv)) = true ->
  Forall covered (Body.survivors (playlists mv)) ->
  Generate.build_playlists streams = Utils.build_master_and_best streams
  /\ Utils.build_master_and_best streams
     = (Some (Utils.with_header (version mv)
                (Body.blocks Body.utils_block (Body.survivors (playlists mv)))),
        Some (Utils.with_header (version mv) (Body.utils_block first))).
Proof.
  intros Hmv Hpl Hfirst Hpos Hnr Hcov.
  unfold Order.multivariant_of in Hmv.
  destruct (streams !! "best") as [best_stream|] eqn:Hbest; [|discriminate Hmv].
  assert (Hsorted : Utils.sorted_reverse Utils.height_of (playlists mv) = first :: rest).
  { rewrite AgreeFacts.sorted_reverse_id by exact Hnr. exact Hpl. }
  destruct (BodyFacts.build_master_and_best_top_survives
              streams best_stream mv first rest Hbest Hmv Hsorted Hfirst)
    as (Hutils & _ & _).
  rewrite <- Hpl in Hutils.
  split; [|exact Hutils].
  rewrite Hutils.
  assert (Hsurv : Body.survivors (playlists mv)
                  = first :: Body.survivors rest).
  { rewrite Hpl. unfold Body.survivors. cbn [List.filter]. now rewrite Hfirst. }
  rewrite (BodyFacts.build_playlists_heights_never_rise
             streams best_stream mv first (Body.survivors rest) Hbest Hmv Hsurv Hpos).
  - rewrite <- Hsurv. rewrite (AgreeFacts.blocks_agree _ Hcov).
    do 3 f_equal. unfold Body.generate_block, Body.utils_block.
    rewrite Hsurv in Hcov. inversion Hcov as [|? ? Hc _]; subst.
    unfold covered in Hc. destruct (stream_info first); [|reflexivity].
    now apply info_to_text_agrees.
  - rewrite <- Hsurv. apply AgreeFacts.sorted_never_rises.
    unfold Body.survivors. apply (OrderFacts.filter_sorted Utils.height_of).
    now apply AgreeFacts.never_rises_sorted.
Qed.

Lemma build_playlists_agrees_on_sorted_input_witness :
  Generate.build_playlists (Sample.streams_of (Some 3) spec_example)
  = Utils.build_master_and_best (Sample.streams_of (Some 3) spec_example)
  /\ Utils.build_master_and_best (Sample.streams_of (Some 3) spec_example)
     = (Some (Utils.with_header (Some 3)
                (Body.blocks Body.utils_block (Body.survivors spec_example))),
        Some (Utils.with_header (Some 3)
                (Body.utils_block
                   (Sample.pl (Sample.video_info 1920 1080) "1080.m3u8")))).
Proof.
  apply (build_playlists_agrees_on_sorted_input
           (Sample.streams_of (Some 3) spec_example)
           {| playlists := spec_example; version := Some 3 |}
           (Sample.pl (Sample.video_info 1920 1080) "1080.m3u8")
           [Sample.pl (Sample.video_info 1280 720) "720.m3u8";
            Sample.pl (Sample.audio_info 854 480) "480.m3u8"]).
  - reflexivity.
  - reflexivity.
  - reflexivity.
  - reflexivity.
  - reflexivity.
  - repeat constructor; simpl; intros _; reflexivity.
Defined.

(** X6.  [info_to_text] and [stream_info_to_extinf] build the same block
    exactly for the variants whose height is covered: they differ when,
    and only when, the resolution has a width that is not 0 and the
    height 0, where [info_to_text] alone writes RESOLUTION. *)
Theorem renderers_agree_iff (info : StreamInfo) (url : string) :
  Generate.info_to_text info url = Utils.stream_info_to_extinf info url
  <-> Extinf.height_covered info.
Proof.
  split; [|apply info_to_text_agrees].
  unfold Extinf.height_covered, Generate.info_to_text, Utils.stream_info_to_extinf.
  destruct (resolution info) as [r|]; [|intros _; exact I].
  intros H Hw. rewrite Hw in H.
  destruct (Py.truthy_int (height r)); [reflexivity|].
  exfalso. simpl andb in H. cbv zeta in H.
  match type of H with
  | (?t +:+ ?a) +:+ ?b = _ => rewrite (append_assoc t a b) in H
  end.
  apply (inj (String.append _)) in H. discriminate H.
Qed.

(** * Further properties of the resolver *)

Module ManifestFacts.
Import Re EurostarTV Manifest ReFacts PlayerConfigFacts.

(** What [search] returns is a match at a place before which there is
    none. *)
Lemma search_from_some r : forall s n m,
  search_from r n s = Some m ->
  exists pre suf,
    s = pre +:+ suf
    /\ match_here r suf = Some (group m)
    /\ start m = (n + String.length pre)%nat
    /\ (forall j, (j < String.length pre)%nat -> match_here r (drop j s) = None).
Proof.
  induction s as [|c s IH]; intros n m H; simpl in H.
  - destruct (match_here r EmptyString) as [g|] eqn:Hm; [|discriminate H].
    injection H as <-. exists EmptyString, EmptyString. simpl.
    repeat split; [exact Hm|lia|intros j Hj; lia].
  - destruct (match_here r (String c s)) as [g|] eqn:Hm.
    + injection H as <-. exists EmptyString, (String c s). simpl.
      repeat split; [exact Hm|lia|intros j Hj; lia].
    + destruct (IH _ _ H) as (pre & suf & -> & Hsuf & Hstart & Hbefore).
      exists (String c pre), suf. rewrite append_cons. simpl.
      repeat split; [exact Hsuf|lia|].
      intros [|j] Hj; [exact Hm|]. simpl. apply Hbefore. lia.
Qed.

Lemma all_in_app P a b : all_in P (a +:+ b) = all_in P a && all_in P b.
Proof.
  induction a as [|c a IH]; [reflexivity|].
  rewrite append_cons. simpl. now rewrite IH, andb_assoc.
Qed.

Lemma all_in_impl (p P : cls) pre :
  (forall c, p c = true -> P c = true) -> all_in p pre = true -> all_in P pre = true.
Proof.
  intros Himp. induction pre as [|c pre IH]; [reflexivity|].
  simpl. intros H. apply andb_prop in H as [Hc Hpre].
  now rewrite (Himp c Hc), IH.
Qed.

Lemma produces_only P r : forall s g rest g',
  only P r -> produces r s g rest g' ->
  exists pre, s = pre +:+ rest /\ all_in P pre = true.
Proof.
  induction r as [l|p|p|p|r1 IH1|r1 IH1 r2 IH2|r1 IH1 r2 IH2|name r1 IH1];
    intros s g rest g' Honly H; simpl in Honly.
  - destruct H as (_ & pre & -> & Hpre). eauto.
  - destruct H as (_ & c & -> & Hc). exists (String c EmptyString).
    split; [reflexivity|]. simpl. now rewrite (Honly c Hc).
  - destruct H as (_ & pre & -> & Hpre). exists pre.
    split; [reflexivity|]. now apply (all_in_impl p).
  - destruct H as (_ & c & pre & -> & Hc & Hpre). exists (String c pre).
    split; [reflexivity|]. simpl. rewrite (Honly c Hc). now apply (all_in_impl p).
  - destruct H as [H|[-> _]]; [eauto|]. now exists EmptyString.
  - destruct Honly as [H1 H2]. destruct H as (mid & gm & Hp1 & Hp2).
    destruct (IH1 _ _ _ _ H1 Hp1) as (p1 & -> & Ha).
    destruct (IH2 _ _ _ _ H2 Hp2) as (p2 & -> & Hb).
    exists (p1 +:+ p2). split; [now rewrite append_assoc|].
    now rewrite all_in_app, Ha, Hb.
  - destruct Honly as [H1 H2]. destruct H as [H|H]; eauto.
  - destruct H as (g1 & H & _). eauto.
Qed.

(** A literal takes characters of [P] when each of its letters does, in
    both cases. *)
Lemma lit_only (P : cls) l :
  Forall (fun a => forall c, eqb_nocase a c = true -> P c = true)
         (list_ascii_of_string l) ->
  forall pre, eq_nocase l pre = true -> all_in P pre = true.
Proof.
  induction l as [|a l IH]; intros Hl pre H.
  - destruct pre; [reflexivity|discriminate H].
  - destruct pre as [|c pre]; [discriminate H|].
    simpl in H. apply andb_prop in H as [Hc Hpre].
    simpl in Hl. inversion Hl as [|? ? Ha Hrest]; subst.
    simpl. rewrite (Ha c Hc). now apply IH.
Qed.

Ltac by_cases_on_character c :=
  destruct c as [[] [] [] [] [] [] [] []]; vm_compute; intros H;
  first [reflexivity | discriminate H].

Lemma letters_are_url_chars :
  Forall (fun a => forall c, eqb_nocase a c = true -> url_char c = true)
         (list_ascii_of_string "htps:/.m3u8").
Proof.
  repeat (constructor; [intros c; by_cases_on_character c|]). constructor.
Qed.

Lemma literal_url_chars l :
  Forall (fun a => In a (list_ascii_of_string "htps:/.m3u8")) (list_ascii_of_string l) ->
  forall pre, eq_nocase l pre = true -> all_in url_char pre = true.
Proof.
  intros Hl. apply lit_only.
  eapply Forall_impl; [exact Hl|].
  intros a Ha. simpl in Ha.
  pose proof letters_are_url_chars as Hall.
  rewrite List.Forall_forall in Hall. now apply Hall.
Qed.

Ltac letters_of_the_pattern :=
  apply literal_url_chars; repeat constructor; simpl; tauto.

Lemma re_m3u8_only : only url_char (Cat http_scheme
  (Cat (Plus url_char) (Cat (Lit ".m3u8") (Star url_char)))).
Proof.
  unfold http_scheme. cbn [only].
  repeat split; try letters_of_the_pattern; auto.
Qed.

(** A match of [_re_m3u8] sets the group [url] to the text it took; that
    text is not empty and has characters of a URL only. *)
Lemma re_m3u8_match s g :
  match_here _re_m3u8 s = Some g ->
  exists u rest,
    s = u +:+ rest /\ g = {[ "url" := u ]}
    /\ Py.truthy_str u = true /\ all_in url_char u = true.
Proof.
  intros H. destruct (match_here_sound _ _ _ H) as (rest & Hp).
  unfold _re_m3u8 in Hp. destruct Hp as (g1 & Hin & ->).
  assert (g1 = ∅) by (eapply produces_groupless; [|exact Hin]; reflexivity).
  subst g1.
  destruct (produces_only url_char _ _ _ _ _ re_m3u8_only Hin) as (u & -> & Hu).
  apply produces_consumes in Hin; [|reflexivity].
  destruct Hin as (c & pre & Hc).
  exists u, rest. rewrite consumed_append.
  repeat split; [|exact Hu].
  rewrite <- (consumed_append u rest), Hc, consumed_append. reflexivity.
Qed.

(** What [_find_m3u8_in_text] finds. *)
Lemma find_m3u8_some text u :
  _find_m3u8_in_text text = Some u ->
  exists pre post,
    text = pre +:+ u +:+ post
    /\ Py.truthy_str u = true /\ all_in url_char u = true
    /\ match_here _re_m3u8 (u +:+ post) = Some {[ "url" := u ]}
    /\ (forall j, (j < String.length pre)%nat ->
          match_here _re_m3u8 (drop j text) = None).
Proof.
  unfold _find_m3u8_in_text, search.
  destruct (search_from _re_m3u8 0 text) as [m|] eqn:Hs; [|discriminate].
  intros Hu.
  destruct (search_from_some _ _ _ _ Hs) as (pre & suf & -> & Hm & _ & Hbefore).
  destruct (re_m3u8_match _ _ Hm) as (u' & post & -> & Hg & Ht & Hc).
  rewrite Hg in Hu. rewrite lookup_singleton_eq in Hu. injection Hu as <-.
  exists pre, post. rewrite <- Hg. auto.
Qed.

(** [_get_streams] once the outer page is there and steps 2 and 3 have
    found nothing in it. *)
Lemma get_streams_after_page env url html :
  http_get env url = Ret html ->
  Resolver.steps_2_3 html = None ->
  _get_streams env url
  = match _find_iframe_url env html url with
    | Some u =>
        if Py.truthy_str u then
          html2 <- http_get env u ;;
          match Resolver.steps_2_3 html2 with
          | Some found =>
              streams <- parse_variant_playlist env found ;; Ret (Some streams)
          | None => Ret None
          end
        else Ret None
    | None => Ret None
    end.
Proof.
  intros Hget Hnone.
  unfold _get_streams, _fetch. rewrite Hget. simpl bind.
  destruct (ResolverFacts.steps_2_3_none _ Hnone) as [H2 H3]. rewrite H2, H3.
  destruct (_find_iframe_url env html url) as [u|]; simpl; [|reflexivity].
  destruct (Py.truthy_str u); [|reflexivity].
  destruct (http_get env u) as [html2|e]; simpl bind; [|reflexivity].
  apply ResolverFacts.steps_2_3_returned.
Qed.

End ManifestFacts.

(** X7.  A direct manifest URL in the outer page wins: when
    [_find_m3u8_in_text] finds a URL there, [_get_streams] hands exactly
    that URL to [parse_variant_playlist] and returns its streams,
    whatever player configuration or iframe the page has besides. *)
Theorem direct_manifest_wins
    (env : EurostarTV.Env) (url html u : string) :
  EurostarTV.http_get env url = Ret html ->
  EurostarTV._find_m3u8_in_text html = Some u ->
  EurostarTV._get_streams env url
  = (streams <- EurostarTV.parse_variant_playlist env u ;; Ret (Some streams)).
Proof.
  intros Hget Hfind.
  destruct (ManifestFacts.find_m3u8_some html u Hfind) as (_ & _ & _ & Ht & _).
  unfold EurostarTV._get_streams, EurostarTV._fetch. rewrite Hget. simpl bind.
  rewrite Hfind. simpl EurostarTV.truthy_opt. rewrite Ht. reflexivity.
Qed.

Lemma direct_manifest_wins_witness :
  EurostarTV._find_player_source_url Manifest.both_page
    = Some "https://cdn.example.com/my cfg.m3u8"
  /\ EurostarTV._get_streams Manifest.env_both Resolver.page_url
     = Ret (Some (Sample.streams_of None
                    [{| stream_info := Some (Sample.video_info 1280 720);
                        uri := "https://cdn.example.com/direct.m3u8?x=1" |}])).
Proof.
  split; [vm_compute; reflexivity|].
  apply (direct_manifest_wins Manifest.env_both Resolver.page_url
           Manifest.both_page "https://cdn.example.com/direct.m3u8?x=1").
  - reflexivity.
  - vm_compute. reflexivity.
Defined.

(** X8.  When steps 2 and 3 find nothing in the outer page, and the page
    has no iframe or the text behind its first iframe has nothing for
    steps 2 and 3 either, [_get_streams] returns [None]: an iframe
    inside the nested text is not followed. *)
Theorem nothing_found_after_one_hop
    (env : EurostarTV.Env) (url html : string) :
  EurostarTV.http_get env url = Ret html ->
  Resolver.steps_2_3 html = None ->
  (EurostarTV._find_iframe_url env html url = None
   \/ exists u html2,
        EurostarTV._find_iframe_url env html url = Some u
        /\ EurostarTV.http_get env u = Ret html2
        /\ Resolver.steps_2_3 html2 = None) ->
  EurostarTV._get_streams env url = Ret None.
Proof.
  intros Hget Hnone Hcase.
  rewrite (ManifestFacts.get_streams_after_page env url html Hget Hnone).
  destruct Hcase as [-> | (u & html2 & -> & Hget2 & Hnone2)]; [reflexivity|].
  destruct (Py.truthy_str u); [|reflexivity].
  rewrite Hget2. simpl bind. now rewrite Hnone2.
Qed.

Lemma nothing_found_after_one_hop_witness :
  EurostarTV._find_iframe_url Manifest.env_two_hops Manifest.relay_page
    Resolver.iframe_url = Some Manifest.deeper_url
  /\ Resolver.steps_2_3 Resolver.inner_page = Some Resolver.manifest_url
  /\ EurostarTV._get_streams Manifest.env_two_hops Resolver.page_url = Ret None.
Proof.
  split; [vm_compute; reflexivity|].
  split; [vm_compute; reflexivity|].
  apply (nothing_found_after_one_hop Manifest.env_two_hops Resolver.page_url
           Resolver.outer_page).
  - reflexivity.
  - vm_compute. reflexivity.
  - right. exists Resolver.iframe_url, Manifest.relay_page.
    split; [vm_compute; reflexivity|].
    split; [reflexivity|].
    vm_compute. reflexivity.
Defined.

(** X9.  The URL [_find_m3u8_in_text] finds is a piece of the text: it
    is not empty, it holds no quote, no backslash and no space, the
    pattern matches where it starts and at no place before. *)
Theorem found_manifest_is_a_clean_piece_of_the_text (text u : string) :
  EurostarTV._find_m3u8_in_text text = Some u ->
  exists pre post,
    text = pre +:+ u +:+ post
    /\ Py.truthy_str u = true
    /\ Re.all_in Manifest.url_char u = true
    /\ Re.match_here EurostarTV._re_m3u8 (u +:+ post) = Some {[ "url" := u ]}
    /\ (forall j, (j < String.length pre)%nat ->
          Re.match_here EurostarTV._re_m3u8 (Re.drop j text) = None).
Proof. apply ManifestFacts.find_m3u8_some. Qed.

Lemma found_manifest_is_a_clean_piece_of_the_text_witness :
  exists pre post,
    Manifest.both_page = pre +:+ "https://cdn.example.com/direct.m3u8?x=1" +:+ post
    /\ Py.truthy_str "https://cdn.example.com/direct.m3u8?x=1" = true
    /\ Re.all_in Manifest.url_char "https://cdn.example.com/direct.m3u8?x=1" = true
    /\ Re.match_here EurostarTV._re_m3u8
         ("https://cdn.example.com/direct.m3u8?x=1" +:+ post)
       = Some {[ "url" := "https://cdn.example.com/direct.m3u8?x=1" ]}
    /\ (forall j, (j < String.length pre)%nat ->
          Re.match_here EurostarTV._re_m3u8 (Re.drop j Manifest.both_page) = None).
Proof.
  apply (found_manifest_is_a_clean_piece_of_the_text Manifest.both_page
           "https://cdn.example.com/direct.m3u8?x=1").
  vm_compute. reflexivity.
Defined.

(** * Further properties of the batch run *)

Module FilesFacts.
Import Generate Batch Paths BatchFacts.
Local Open Scope list_scope.

Lemma with_header_truthy v body : Py.truthy_str (Utils.with_header v body) = true.
Proof. reflexivity. Qed.

(** Bodies come from a dict that has a ["best"] entry, and they are not
    empty. *)
Lemma build_playlists_some streams m b :
  build_playlists streams = (Some m, Some b) ->
  truthy_streams streams = true /\ Py.truthy_str m = true.
Proof.
  unfold build_playlists. intros H. split.
  - unfold truthy_streams.
    destruct (Nat.eqb (size streams) 0) eqn:Hsize; [|reflexivity].
    apply Nat.eqb_eq in Hsize. apply map_size_empty_iff in Hsize. subst streams.
    rewrite lookup_empty in H. discriminate H.
  - destruct (streams !! "best") as [best_stream|]; [|discriminate H].
    destruct (multivariant best_stream) as [mv|]; [|discriminate H].
    destruct (negb (Py.truthy_list (playlists mv))); [discriminate H|].
    cbv zeta in H.
    destruct (negb (Py.truthy_str (master_text _))); [discriminate H|].
    injection H as <- _. apply with_header_truthy.
Qed.

Lemma build_playlists_nothing streams :
  build_playlists streams = (None, None) ->
  forall env mf bf n ch c w,
    session_streams env n (session_for (headers ch)) (url ch) = Ret streams ->
    exists out,
      process_channel env mf bf n ch c w
      = (Ret (failed c),
         {| files := files w; stdout := stdout w ++ out;
            requests := requests w ++ [request_of ch] |}).
Proof.
  intros Hnone env mf bf n ch c w Hs.
  unfold process_channel, mbind, try_except, print, get_streams, write_file, ret.
  simpl. rewrite get_streams_session, Hs.
  destruct (truthy_streams streams); simpl.
  - rewrite Hnone. simpl. eexists. rewrite <- !app_assoc. reflexivity.
  - eexists. rewrite <- !app_assoc. reflexivity.
Qed.

End FilesFacts.



(** X11.  A channel whose streams cannot be fetched, or whose streams
    give no bodies (an empty dict among them), is a failure that writes
    nothing: every file stays as it was, a file the channel got in an
    earlier run included. *)
Theorem channel_without_playlists_keeps_files
    (env : Generate.Env) (mf bf : string) (n : nat) (ch : channel)
    (c : Generate.counters) (w : Generate.World) :
  ((exists e, Generate.session_streams env n (Batch.session_for (headers ch)) (url ch)
              = Raise e)
   \/ exists streams,
        Generate.session_streams env n (Batch.session_for (headers ch)) (url ch)
          = Ret streams
        /\ Generate.build_playlists streams = (None, None)) ->
  exists out,
    Generate.process_channel env mf bf n ch c w
    = (Ret (Generate.failed c),
       {| Generate.files := Generate.files w;
          Generate.stdout := (Generate.stdout w ++ out)%list;
          Generate.requests := (Generate.requests w ++ [Batch.request_of ch])%list |}).
Proof.
  intros [(e & Hs) | (streams & Hs & Hnone)].
  - unfold Generate.process_channel, Generate.mbind, Generate.try_except,
      Generate.print, Generate.get_streams, Generate.write_file, Generate.ret.
    simpl. rewrite BatchFacts.get_streams_session, Hs. simpl.
    eexists. rewrite <- !app_assoc. reflexivity.
  - now apply (FilesFacts.build_playlists_nothing streams).
Qed.

Lemma channel_without_playlists_keeps_files_witness :
  exists out,
    Generate.process_channel Batch.env_none "output/master" "output/best"
      0 Paths.channel_one {| Generate.success := 0; Generate.fail := 0 |}
      {| Generate.files := {[ "output/best/one.m3u8" := "old" ]};
         Generate.stdout := []; Generate.requests := [] |}
    = (Ret {| Generate.success := 0; Generate.fail := 1 |},
       {| Generate.files := {[ "output/best/one.m3u8" := "old" ]};
          Generate.stdout := ([] ++ out)%list;
          Generate.requests := ([] ++ [Batch.request_of Paths.channel_one])%list |}).
Proof.
  refine (channel_without_playlists_keeps_files Batch.env_none
            "output/master" "output/best" 0 Paths.channel_one
            {| Generate.success := 0; Generate.fail := 0 |}
            {| Generate.files := {[ "output/best/one.m3u8" := "old" ]};
               Generate.stdout := []; Generate.requests := [] |} _).
  right. exists ∅. split; reflexivity.
Defined.

(** X12.  The two writes are not one step: when the master file is
    written and the best file cannot be opened, the channel is a
    failure, the new master file stays, and the best file is as it was. *)
Theorem best_write_failure_leaves_master_written
    (env : Generate.Env) (mf bf : string) (n : nat) (ch : channel)
    (c : Generate.counters) (w : Generate.World)
    (streams : Streams) (m b : string) (e : exn) :
  Generate.session_streams env n (Batch.session_for (headers ch)) (url ch)
    = Ret streams ->
  Generate.build_playlists streams = (Some m, Some b) ->
  Generate.open_write env n (Paths.master_path mf ch) = Ret tt ->
  Generate.open_write env n (Paths.best_path bf ch) = Raise e ->
  Generate.process_channel env mf bf n ch c w
  = (Ret (Generate.failed c),
     {| Generate.files := <[Paths.master_path mf ch := m]> (Generate.files w);
        Generate.stdout :=
          (Generate.stdout w
           ++ [Generate.PrintProcessing (slug ch); Generate.PrintUrl (url ch);
               Generate.PrintError e])%list;
        Generate.requests := (Generate.requests w ++ [Batch.request_of ch])%list |}).
Proof.
  intros Hs Hbuild Hmaster Hbest.
  destruct (FilesFacts.build_playlists_some streams m b Hbuild) as [Hts Htm].
  unfold Paths.master_path in Hmaster. unfold Paths.best_path in Hbest.
  unfold Generate.process_channel, Generate.mbind, Generate.try_except,
    Generate.print, Generate.get_streams, Generate.write_file, Generate.ret.
  simpl. rewrite BatchFacts.get_streams_session, Hs, Hts. simpl.
  rewrite Hbuild. simpl. rewrite Htm. simpl.
  rewrite Hmaster, Hbest. simpl.
  unfold Paths.master_path, Batch.request_of.
  rewrite <- !app_assoc. reflexivity.
Qed.

Lemma best_write_failure_leaves_master_written_witness :
  exists m,
    Generate.process_channel Paths.env_best_locked "output/master" "output/best"
      0 Paths.channel_one {| Generate.success := 0; Generate.fail := 0 |}
      Generate.empty_world
    = (Ret {| Generate.success := 0; Generate.fail := 1 |},
       {| Generate.files := <["output/master/one.m3u8" := m]> ∅;
          Generate.stdout :=
            [Generate.PrintProcessing "one"; Generate.PrintUrl "https://one.example/live";
             Generate.PrintError (OSError "Permission denied")];
          Generate.requests := [Batch.request_of Paths.channel_one] |}).
Proof.
  eexists.
  apply (best_write_failure_leaves_master_written Paths.env_best_locked
           "output/master" "output/best" 0 Paths.channel_one
           {| Generate.success := 0; Generate.fail := 0 |} Generate.empty_world
           (Sample.streams_of (Some 3)
              [Sample.pl (Sample.video_info 1280 720) "720.m3u8"])
           _ (Utils.with_header (Some 3)
                (Generate.info_to_text (Sample.video_info 1280 720) "720.m3u8"))).
  - reflexivity.
  - vm_compute. reflexivity.
  - reflexivity.
  - reflexivity.
Defined.

Module RunFacts.
Import Generate Batch Paths BatchFacts.
Local Open Scope list_scope.




(** The run, when the folders are made: the loop, then four lines and
    the exit code. *)
Lemma main_runs env cfg w :
  folders_ok env cfg ->
  exists c w1,
    for_channels env (master_folder_of cfg) (best_folder_of cfg) 0 (channels cfg)
      {| success := 0; fail := 0 |} (printed w [PrintStart]) = (Ret c, w1)
    /\ main env (Ret cfg) w
       = (Ret (if Nat.eqb (success c) 0 then Some 1 else None),
          printed w1 (summary (success c) (fail c) (length (channels cfg)))).
Proof.
  intros [Hbest Hmaster].
  destruct (for_channels_all env (master_folder_of cfg) (best_folder_of cfg)
              (channels cfg) 0%nat {| success := 0; fail := 0 |}
              (printed w [PrintStart])) as (c & w1 & Hloop & _).
  exists c, w1. split; [exact Hloop|].
  unfold main, mbind, print, lift. simpl.
  fold (best_folder_of cfg). fold (master_folder_of cfg).
  rewrite Hbest, Hmaster. unfold printed in Hloop. simpl in Hloop. rewrite Hloop.
  simpl. unfold printed, summary.
  destruct (Nat.eqb (success c) 0); simpl; rewrite <- !app_assoc; reflexivity.
Qed.

End RunFacts.

(** X13.  When one of the two output folders cannot be made, the
    exception leaves [main]: the exit status is [1], and no channel is
    processed, no stream is requested, no file is written and no summary
    is printed. *)
Theorem folders_failure_stops_the_run
    (env : Generate.Env) (cfg : config) (w : Generate.World) (e : exn) :
  (Generate.os_makedirs env (Batch.best_folder_of cfg) = Raise e
   \/ (Generate.os_makedirs env (Batch.best_folder_of cfg) = Ret tt
       /\ Generate.os_makedirs env (Batch.master_folder_of cfg) = Raise e)) ->
  Generate.main env (Ret cfg) w
    = (Raise e, Paths.printed w [Generate.PrintStart])
  /\ Generate.exit_status (fst (Generate.main env (Ret cfg) w)) = 1.
Proof.
  intros H.
  assert (Hrun : Generate.main env (Ret cfg) w
                 = (Raise e, Paths.printed w [Generate.PrintStart])).
  { unfold Generate.main, Generate.mbind, Generate.print, Generate.lift. simpl.
    fold (Batch.best_folder_of cfg). fold (Batch.master_folder_of cfg).
    destruct H as [-> | [-> ->]]; reflexivity. }
  split; [exact Hrun|]. now rewrite Hrun.
Qed.

Lemma folders_failure_stops_the_run_witness :
  Generate.main Paths.env_no_folders (Ret Batch.three_channels) Generate.empty_world
    = (Raise (OSError "Read-only file system"),
       Paths.printed Generate.empty_world [Generate.PrintStart])
  /\ Generate.exit_status
       (fst (Generate.main Paths.env_no_folders (Ret Batch.three_channels)
               Generate.empty_world)) = 1.
Proof.
  apply (folders_failure_stops_the_run Paths.env_no_folders Batch.three_channels
           Generate.empty_world (OSError "Read-only file system")).
  left. reflexivity.
Defined.

(** X14.  When the folders are made, the run calls [session.streams]
    once for every channel, in the order of the list, each time with the
    URL of the channel on the session made for it, whether the channels
    before it have failed or not. *)
Theorem one_request_per_channel
    (env : Generate.Env) (cfg : config) (w : Generate.World) :
  Batch.folders_ok env cfg ->
  Generate.requests (snd (Generate.main env (Ret cfg) w))
  = (Generate.requests w ++ map Batch.request_of (channels cfg))%list.
Proof.
  intros Hok.
  destruct (RunFacts.main_runs env cfg w Hok) as (c & w1 & Hloop & ->).
  destruct (BatchFacts.for_channels_all env (Batch.master_folder_of cfg)
              (Batch.best_folder_of cfg) (channels cfg) 0%nat
              {| Generate.success := 0; Generate.fail := 0 |}
              (Paths.printed w [Generate.PrintStart]))
    as (c' & w' & Hloop' & _ & Hreq & _).
  rewrite Hloop in Hloop'. injection Hloop' as <- <-.
  exact Hreq.
Qed.

Lemma one_request_per_channel_witness :
  Generate.requests
    (snd (Generate.main Batch.env_first_only (Ret Batch.three_channels)
            Generate.empty_world))
  = (Generate.requests Generate.empty_world
     ++ map Batch.request_of (channels Batch.three_channels))%list.
Proof.
  apply (one_request_per_channel Batch.env_first_only Batch.three_channels
           Generate.empty_world).
  split; reflexivity.
Defined.



(** * Properties of the folders and files of utils.py *)

Module UtilsIOFacts.
Import UtilsIO.

Lemma prefix_append (a b : string) : String.prefix a (a +:+ b) = true.
Proof.
  induction a as [|x a IH]; [now destruct b|].
  rewrite append_cons. simpl. destruct (ascii_dec x x); [exact IH|congruence].
Qed.

(** A path joined with a relative name starts with the path; joined
    with an absolute name it is that name. *)
Lemma os_path_join_nested (a b : string) :
  if String.prefix "/" b then Generate.os_path_join a b = b
  else String.prefix a (Generate.os_path_join a b) = true.
Proof.
  unfold Generate.os_path_join.
  destruct (String.prefix "/" b); [reflexivity|].
  destruct (negb (Py.truthy_str a) || Py.ends_with "/" a); apply prefix_append.
Qed.

Lemma has_sep_append (a b : string) : has_sep (a +:+ b) = has_sep a || has_sep b.
Proof.
  induction a as [|x a IH]; [reflexivity|].
  rewrite append_cons. simpl. now rewrite IH, orb_assoc.
Qed.

Lemma head_of_dir (d name : string) :
  has_sep name = false -> head_of (d +:+ "/" +:+ name) = d +:+ "/".
Proof.
  intros Hname. change ("/" +:+ name) with (String "/" name).
  induction d as [|x d IH].
  - rewrite append_nil_l. simpl. now rewrite Hname.
  - rewrite !append_cons. cbn [head_of].
    rewrite has_sep_append. cbn [has_sep is_sep]. simpl Ascii.eqb.
    rewrite orb_true_r. now rewrite IH.
Qed.

Lemma rev_app_append (a b acc : string) :
  String.rev_app (a +:+ b) acc = String.rev_app b (String.rev_app a acc).
Proof.
  revert acc. induction a as [|x a IH]; intros acc; [reflexivity|].
  rewrite append_cons. simpl. apply IH.
Qed.

(** A text that is not empty ends in some character. *)
Lemma last_character (d : string) :
  Py.truthy_str d = true -> exists d0 c, d = d0 +:+ String c EmptyString.
Proof.
  induction d as [|x d IH]; [discriminate|]. intros _.
  destruct d as [|y d].
  - now exists EmptyString, x.
  - destruct (IH eq_refl) as (d0 & c & Hd). exists (String x d0), c.
    rewrite append_cons. now rewrite <- Hd.
Qed.

Lemma ends_with_sep (d0 : string) (c : ascii) :
  Py.ends_with "/" (d0 +:+ String c EmptyString) = is_sep c.
Proof.
  unfold Py.ends_with, String.rev. rewrite rev_app_append.
  cbn [String.rev_app String.prefix].
  unfold is_sep. destruct (ascii_dec "/" c) as [<-|Hne].
  - now destruct (String.rev_app d0 EmptyString).
  - destruct (Ascii.eqb c "/") eqn:Hc; [|reflexivity].
    apply Ascii.eqb_eq in Hc. congruence.
Qed.

Lemma rstrip_sep_dir (d0 : string) (c : ascii) :
  is_sep c = false ->
  rstrip_sep (d0 +:+ String c EmptyString +:+ "/") = d0 +:+ String c EmptyString.
Proof.
  intros Hc. change (String c EmptyString +:+ "/") with (String c "/").
  induction d0 as [|x d0 IH].
  - rewrite !append_nil_l. simpl. now rewrite Hc.
  - rewrite !append_cons. cbn [rstrip_sep]. rewrite IH.
    destruct d0; reflexivity.
Qed.

Lemma all_sep_dir (d0 : string) (c : ascii) (rest : string) :
  is_sep c = false -> all_sep (d0 +:+ String c EmptyString +:+ rest) = false.
Proof.
  intros Hc. change (String c EmptyString +:+ rest) with (String c rest).
  induction d0 as [|x d0 IH].
  - rewrite append_nil_l. simpl. now rewrite Hc.
  - rewrite append_cons. simpl. rewrite IH. apply andb_false_r.
Qed.

Lemma head_of_bare (name : string) : has_sep name = false -> head_of name = EmptyString.
Proof.
  induction name as [|x name IH]; [reflexivity|].
  simpl. intros H. apply orb_false_elim in H as [Hx Hname].
  now rewrite Hname, Hx.
Qed.

Lemma no_sep_not_absolute (name : string) :
  has_sep name = false -> String.prefix "/" name = false.
Proof.
  destruct name as [|x name]; [reflexivity|].
  simpl has_sep. intros H. apply orb_false_elim in H as [Hx _].
  cbn [String.prefix]. destruct (ascii_dec "/" x) as [<-|_]; [discriminate Hx|].
  reflexivity.
Qed.

End UtilsIOFacts.

(** X16.  [ensure_output_folders] returns its three paths only after
    both folders have been made.  Each of the two folders lies under the
    root when its configured name is relative, and is the configured
    name itself, outside the root, when that name starts with a slash;
    the same holds for the root and the base. *)
Theorem ensure_output_folders_paths
    (env : UtilsIO.Env) (cfg : output_cfg) (cwd : option string)
    (paths : UtilsIO.OutputPaths) :
  UtilsIO.ensure_output_folders env cfg cwd = Ret paths ->
  UtilsIO.os_makedirs env (UtilsIO.best_dir paths) = Ret tt
  /\ UtilsIO.os_makedirs env (UtilsIO.master_dir paths) = Ret tt
  /\ (if String.prefix "/" (bestFolder cfg)
      then UtilsIO.best_dir paths = bestFolder cfg
      else String.prefix (UtilsIO.root paths) (UtilsIO.best_dir paths) = true)
  /\ (if String.prefix "/" (masterFolder cfg)
      then UtilsIO.master_dir paths = masterFolder cfg
      else String.prefix (UtilsIO.root paths) (UtilsIO.master_dir paths) = true)
  /\ (if String.prefix "/" (folder cfg)
      then UtilsIO.root paths = folder cfg
      else String.prefix
             (match cwd with
              | Some c => if Py.truthy_str c then c else UtilsIO.os_getcwd env
              | None => UtilsIO.os_getcwd env
              end) (UtilsIO.root paths) = true).
Proof.
  unfold UtilsIO.ensure_output_folders. cbv zeta.
  set (base := match cwd with
               | Some c => if Py.truthy_str c then c else UtilsIO.os_getcwd env
               | None => UtilsIO.os_getcwd env
               end).
  destruct (UtilsIO.os_makedirs env
              (Generate.os_path_join (Generate.os_path_join base (folder cfg))
                 (bestFolder cfg))) as [[]|e] eqn:Hbest; [|discriminate].
  simpl bind.
  destruct (UtilsIO.os_makedirs env
              (Generate.os_path_join (Generate.os_path_join base (folder cfg))
                 (masterFolder cfg))) as [[]|e] eqn:Hmaster; [|discriminate].
  simpl bind. intros H. injection H as <-. simpl.
  split; [exact Hbest|]. split; [exact Hmaster|].
  split; [apply UtilsIOFacts.os_path_join_nested|].
  split; apply UtilsIOFacts.os_path_join_nested.
Qed.

Lemma ensure_output_folders_paths_witness :
  UtilsIO.os_makedirs UtilsIO.env_posix "/srv/pstream/output/best" = Ret tt
  /\ UtilsIO.os_makedirs UtilsIO.env_posix "/var/www/master" = Ret tt
  /\ String.prefix "/srv/pstream/output" "/srv/pstream/output/best" = true
  /\ "/var/www/master" = "/var/www/master"
  /\ String.prefix "/srv/pstream" "/srv/pstream/output" = true.
Proof.
  apply (ensure_output_folders_paths UtilsIO.env_posix UtilsIO.output_sample None
           {| UtilsIO.root := "/srv/pstream/output";
              UtilsIO.best_dir := "/srv/pstream/output/best";
              UtilsIO.master_dir := "/var/www/master" |}).
  reflexivity.
Defined.



(** [dirname] gives back the folder from a joined path. *)
Lemma dirname_of_joined_path (d name : string) :
  Py.truthy_str d = true ->
  Py.ends_with "/" d = false ->
  UtilsIO.has_sep name = false ->
  UtilsIO.dirname (Generate.os_path_join d name) = d.
Proof.
  intros Hd Hend Hname.
  assert (Hjoin : Generate.os_path_join d name = d +:+ "/" +:+ name).
  { unfold Generate.os_path_join.
    rewrite (UtilsIOFacts.no_sep_not_absolute name Hname), Hd, Hend.
    reflexivity. }
  rewrite Hjoin. unfold UtilsIO.dirname.
  rewrite (UtilsIOFacts.head_of_dir d name Hname).
  destruct (UtilsIOFacts.last_character d Hd) as (d0 & c & ->).
  rewrite UtilsIOFacts.ends_with_sep in Hend.
  rewrite append_assoc.
  rewrite (UtilsIOFacts.all_sep_dir d0 c "/" Hend).
  rewrite (UtilsIOFacts.rstrip_sep_dir d0 c Hend).
  destruct d0; reflexivity.
Qed.

(** X18.  For a file name without a slash joined to a folder path that
    is not empty and does not end in a slash, [write_text_file] makes
    exactly that folder before it opens the file: where the outside
    makes the folder and opens the file, the call returns with the
    content written, and where it refuses the folder, the call raises
    and writes nothing. *)
Theorem write_text_file_makes_the_folder
    (env : UtilsIO.Env) (d name content : string) (files : UtilsIO.Files) :
  Py.truthy_str d = true ->
  Py.ends_with "/" d = false ->
  UtilsIO.has_sep name = false ->
  UtilsIO.write_text_file env (Generate.os_path_join d name) content files
  = match UtilsIO.os_makedirs env d with
    | Raise e => (Raise e, files)
    | Ret _ =>
        match UtilsIO.open_write env (Generate.os_path_join d name) with
        | Raise e => (Raise e, files)
        | Ret _ => (Ret tt, <[Generate.os_path_join d name := content]> files)
        end
    end.
Proof.
  intros Hd Hend Hname. unfold UtilsIO.write_text_file.
  now rewrite (dirname_of_joined_path d name Hd Hend Hname).
Qed.

Lemma write_text_file_makes_the_folder_witness :
  UtilsIO.write_text_file UtilsIO.env_posix
    (Generate.os_path_join "output/best" "one.m3u8") "#EXTM3U" ∅
  = (Ret tt, <["output/best/one.m3u8" := "#EXTM3U"]> ∅).
Proof.
  refine (write_text_file_makes_the_folder UtilsIO.env_posix
            "output/best" "one.m3u8" "#EXTM3U" ∅ _ _ _); reflexivity.
Defined.

(** X19.  For a path without a slash [write_text_file] asks for the
    folder with the empty name; where the outside refuses to make that
    one, the call raises and no file is written. *)
Theorem write_text_file_bare_name
    (env : UtilsIO.Env) (path content : string) (files : UtilsIO.Files) (e : exn) :
  UtilsIO.has_sep path = false ->
  UtilsIO.os_makedirs env EmptyString = Raise e ->
  UtilsIO.dirname path = EmptyString
  /\ UtilsIO.write_text_file env path content files = (Raise e, files).
Proof.
  intros Hbare Hmk.
  assert (Hdir : UtilsIO.dirname path = EmptyString).
  { unfold UtilsIO.dirname. now rewrite (UtilsIOFacts.head_of_bare path Hbare). }
  split; [exact Hdir|].
  unfold UtilsIO.write_text_file. now rewrite Hdir, Hmk.
Qed.

Lemma write_text_file_bare_name_witness :
  UtilsIO.dirname "one.m3u8" = EmptyString
  /\ UtilsIO.write_text_file UtilsIO.env_posix "one.m3u8" "#EXTM3U" ∅
     = (Raise (OSError "No such file or directory"), ∅).
Proof.
  apply (write_text_file_bare_name UtilsIO.env_posix "one.m3u8" "#EXTM3U" ∅
           (OSError "No such file or directory")); reflexivity.
Defined.



(** * Properties of the URL pattern *)

Module MatcherFacts.
Import Re Matcher ReFacts.

Lemma produces_exact l : forall s g rest g',
  produces (exact l) s g rest g' -> s = l +:+ rest /\ g' = g.
Proof.
  induction l as [|a l IH]; intros s g rest g' H.
  - destruct H as (-> & pre & -> & Hpre).
    destruct pre; [auto|discriminate Hpre].
  - destruct H as (mid & gm & (-> & c & -> & Hc) & H2).
    apply Ascii.eqb_eq in Hc. subst c.
    destruct (IH _ _ _ _ H2) as (-> & ->). auto.
Qed.

Lemma run_exact {A} l : forall rest g (k : string -> groups -> option A),
  run (exact l) (l +:+ rest) g k = k rest g.
Proof.
  induction l as [|a l IH]; intros rest g k; [reflexivity|].
  rewrite append_cons. cbn [exact run]. rewrite Ascii.eqb_refl. apply IH.
Qed.

Lemma run_cat {A} r1 r2 s g (k : string -> groups -> option A) :
  run (Cat r1 r2) s g k = run r1 s g (fun rest g' => run r2 rest g' k).
Proof. reflexivity. Qed.

(** An optional part never makes a match fail that goes on without it. *)
Lemma run_opt_some {A} r s g (k : string -> groups -> option A) :
  is_Some (k s g) -> is_Some (run (Opt r) s g k).
Proof.
  intros H. cbn [run]. destruct (run r s g k); [eauto|exact H].
Qed.

Lemma run_opt_take {A} r s g (k : string -> groups -> option A) :
  is_Some (run r s g k) -> is_Some (run (Opt r) s g k).
Proof.
  intros [x H]. cbn [run]. rewrite H. eauto.
Qed.

Lemma run_exact_some {A} l rest g (k : string -> groups -> option A) :
  is_Some (k rest g) -> is_Some (run (exact l) (l +:+ rest) g k).
Proof. now rewrite run_exact. Qed.

Lemma run_cat_some {A} r1 r2 s g (k : string -> groups -> option A) :
  is_Some (run r1 s g (fun rest g' => run r2 rest g' k)) ->
  is_Some (run (Cat r1 r2) s g k).
Proof. intros H. exact H. Qed.

Lemma run_grp_exact_some {A} name l rest g (k : string -> groups -> option A) :
  (forall g', is_Some (k rest g')) ->
  is_Some (run (Grp name (exact l)) (l +:+ rest) g k).
Proof.
  intros H. cbn [run]. rewrite run_exact. apply H.
Qed.

Lemma matches_some url : matches url = true <-> is_Some (match_here url_pattern url).
Proof.
  unfold matches. destruct (match_here url_pattern url); split; intros H;
    try reflexivity; try discriminate H; eauto.
  destruct H as [x H]. discriminate H.
Qed.

End MatcherFacts.

(** X21.  The URL pattern of the plugin matches a URL exactly when the
    URL starts with [http://] or [https://], then optionally [www.],
    then [eurostartv.com.tr/canli-izle], all in lower case; whatever
    follows is accepted. *)
Theorem url_pattern_language (url : string) :
  Matcher.matches url = true
  <-> exists s w rest,
        (s = EmptyString \/ s = "s") /\ (w = EmptyString \/ w = "www.")
        /\ url = "http" +:+ s +:+ "://" +:+ w
                  +:+ "eurostartv.com.tr/canli-izle" +:+ rest.
Proof.
  rewrite MatcherFacts.matches_some. split.
  - intros [g Hg]. destruct (ReFacts.match_here_sound _ _ _ Hg) as (rest & Hp).
    unfold Matcher.url_pattern in Hp.
    destruct Hp as (m1 & g1 & H1 & m2 & g2 & H2 & m3 & g3 & H3
                    & m4 & g4 & H4 & m5 & g5 & H5 & H6).
    apply MatcherFacts.produces_exact in H1 as [-> ->].
    apply MatcherFacts.produces_exact in H3 as [-> ->].
    apply MatcherFacts.produces_exact in H5 as [-> ->].
    assert (Hs : exists s, (s = EmptyString \/ s = "s") /\ m1 = s +:+ "://" +:+ m3).
    { destruct H2 as [H2|[-> _]].
      - apply MatcherFacts.produces_exact in H2 as [-> _]. exists "s". auto.
      - exists EmptyString. auto. }
    assert (Hw : exists w, (w = EmptyString \/ w = "www.")
                           /\ m3 = w +:+ "eurostartv.com.tr/canli-izle" +:+ m5).
    { destruct H4 as [(gi & H4 & _)|[-> _]].
      - apply MatcherFacts.produces_exact in H4 as [-> _]. exists "www.". auto.
      - exists EmptyString. auto. }
    destruct Hs as (s & Hs & ->). destruct Hw as (w & Hw & ->).
    exists s, w, m5. auto.
  - intros (s & w & rest & Hs & Hw & ->).
    assert (Hend : forall text g,
              is_Some (Re.run (Re.Opt (Matcher.exact "/")) text g
                         (fun _ g' => Some g')))
      by (intros text g; apply MatcherFacts.run_opt_some; eauto).
    assert (Htail : forall g,
              is_Some (Re.run
                (Re.Cat (Re.Opt (Re.Grp "1" (Matcher.exact "www.")))
                   (Re.Cat (Matcher.exact "eurostartv.com.tr/canli-izle")
                      (Re.Opt (Matcher.exact "/"))))
                (w +:+ "eurostartv.com.tr/canli-izle" +:+ rest) g
                (fun _ g' => Some g'))).
    { intros g. apply MatcherFacts.run_cat_some.
      destruct Hw as [-> | ->].
      - rewrite append_nil_l. apply MatcherFacts.run_opt_some.
        apply MatcherFacts.run_cat_some, MatcherFacts.run_exact_some. apply Hend.
      - apply MatcherFacts.run_opt_take, MatcherFacts.run_grp_exact_some.
        intros g'. apply MatcherFacts.run_cat_some, MatcherFacts.run_exact_some.
        apply Hend. }
    unfold Re.match_here, Matcher.url_pattern.
    apply MatcherFacts.run_cat_some, MatcherFacts.run_exact_some.
    apply MatcherFacts.run_cat_some.
    destruct Hs as [-> | ->].
    + rewrite append_nil_l. apply MatcherFacts.run_opt_some.
      apply MatcherFacts.run_cat_some, MatcherFacts.run_exact_some. apply Htail.
    + apply MatcherFacts.run_opt_take, MatcherFacts.run_exact_some.
      apply MatcherFacts.run_cat_some, MatcherFacts.run_exact_some. apply Htail.
Qed.

(** The pattern at work: the page of the plugin with and without
    [www.], a longer path, an upper-case host and another path. *)
Lemma url_pattern_examples :
  Matcher.matches "https://www.eurostartv.com.tr/canli-izle" = true
  /\ Matcher.matches "http://eurostartv.com.tr/canli-izle/" = true
  /\ Matcher.matches "https://eurostartv.com.tr/canli-izle-arsiv" = true
  /\ Matcher.matches "https://WWW.EUROSTARTV.COM.TR/canli-izle" = false
  /\ Matcher.matches "https://www.eurostartv.com.tr/haberler" = false.
Proof. repeat split; vm_compute; reflexivity. Qed.

(** X22.  [fetch_streams] of utils.py and [get_streams] of generate.py
    make the same call: both ask [session.streams] for the URL on a new
    session whose only option is ["http-headers"], set to the default
    [User-Agent] with the given headers over it; with no headers, or an
    empty dict, that is the default alone. *)
Theorem fetch_streams_same_call
    (env : Generate.Env) (n : nat) (url : string) (h : option Headers)
    (w : Generate.World) :
  fst (Generate.get_streams env n url h w)
    = Utils.fetch_streams (Generate.session_streams env n) url h
  /\ Generate.requests (snd (Generate.get_streams env n url h w))
     = (Generate.requests w ++ [(Utils.make_streamlink_session h, url)])%list
  /\ options (Utils.make_streamlink_session h)
     = {[ "http-headers" := Batch.sent_headers h ]}
  /\ Utils.make_streamlink_session (Some ∅) = Utils.make_streamlink_session None.
Proof.
  assert (Hsame : forall h', Utils.make_streamlink_session h' = Batch.session_for h')
    by apply BatchFacts.make_streamlink_session_for.
  unfold Utils.fetch_streams, Generate.get_streams. cbv zeta. cbn [fst snd Generate.requests].
  rewrite BatchFacts.get_streams_session, !Hsame.
  split; [reflexivity|]. split; [reflexivity|]. split; [reflexivity|].
  unfold Batch.session_for, Batch.sent_headers.
  now rewrite (left_id_L ∅ (∪)).
Qed.
